(** * EDI loan application app: a model of [streamlit_app.py]

    The development follows the script top to bottom: the helpers, the
    [Applicant] schema, the login and user-creation boxes, the collector
    page and the admin page.  External libraries (json, bcrypt, the clock
    and the random source) are interfaces; the hosted table service is a
    pair of row lists. *)

From Stdlib Require Import ZArith Lia Ascii String List Floats Bool Sorted.
From stdpp Require Import base option list gmap strings.

Local Open Scope Z_scope.

(** ** Python strings

    A [str] is modelled as a sequence of code points below 256, one per
    [ascii].  [str.lower], [str.strip] and [str.split] are given for that
    range. *)

Definition code (c : ascii) : N := N_of_ascii c.

(** [str.lower] on one code point: A-Z, and the Latin-1 capitals
    U+00C0..U+00DE without the multiplication sign U+00D7. *)
Definition lower_char (c : ascii) : ascii :=
  let n := code c in
  if ((65 <=? n) && (n <=? 90))%N
     || ((192 <=? n) && (n <=? 222) && negb (n =? 215))%N
  then ascii_of_N (n + 32) else c.

Fixpoint lower (s : string) : string :=
  match s with
  | EmptyString => EmptyString
  | String c s' => String (lower_char c) (lower s')
  end.

(** [str.isspace] on one code point. *)
Definition is_space (c : ascii) : bool :=
  let n := code c in
  (((9 <=? n) && (n <=? 13)) || ((28 <=? n) && (n <=? 32))
   || (n =? 133) || (n =? 160))%N.

Fixpoint lstrip (s : string) : string :=
  match s with
  | EmptyString => EmptyString
  | String c s' => if is_space c then lstrip s' else s
  end.

Fixpoint rstrip (s : string) : string :=
  match s with
  | EmptyString => EmptyString
  | String c s' =>
      match rstrip s' with
      | EmptyString => if is_space c then EmptyString else String c EmptyString
      | r => String c r
      end
  end.

Definition strip (s : string) : string := rstrip (lstrip s).

(** Truthiness of a [str]: non-empty. *)
Definition truthy (s : string) : bool :=
  match s with EmptyString => false | _ => true end.

(** [s.split(sep)] for a one-character separator, never the empty list. *)
Fixpoint split_on (sep : ascii) (cur : string) (s : string) : list string :=
  match s with
  | EmptyString => [cur]
  | String c s' =>
      if Ascii.eqb c sep then cur :: split_on sep EmptyString s'
      else split_on sep (cur +:+ String c EmptyString) s'
  end.

Definition split (sep : ascii) (s : string) : list string :=
  split_on sep EmptyString s.

Definition LF : ascii := ascii_of_N 10.
Definition CR : ascii := ascii_of_N 13.

(** ** Python values that reach the store

    A stored record is a flat [dict] from column names to JSON scalars.
    Two dicts are equal when they have the same items, whatever the
    insertion order, which is the equality of [gmap]. *)

Inductive scalar :=
  | JNull
  | JBool (b : bool)
  | JInt (n : Z)
  | JFloat (x : float)
  | JStr (s : string).

Abbreviation record := (gmap string scalar).

(** [datetime.date]: the three components, and [str(d)] (ISO format). *)
Record date := mk_date { year : Z; month : Z; day : Z }.

Definition is_leap (y : Z) : bool :=
  ((y mod 4 =? 0) && negb (y mod 100 =? 0)) || (y mod 400 =? 0).

Definition days_in_month (y m : Z) : Z :=
  if (m =? 2) then (if is_leap y then 29 else 28)
  else if (m =? 4) || (m =? 6) || (m =? 9) || (m =? 11) then 30 else 31.

Definition valid_date (d : date) : bool :=
  (1 <=? year d) && (year d <=? 9999) && (1 <=? month d) && (month d <=? 12)
  && (1 <=? day d) && (day d <=? days_in_month (year d) (month d)).

Definition digit (n : Z) : ascii := ascii_of_N (48 + Z.to_N (n mod 10)).

(** [n] zero-padded to [w] decimal digits (as in the format [%0wd]). *)
Fixpoint zero_padded (w : nat) (n : Z) : string :=
  match w with
  | O => EmptyString
  | S w' => zero_padded w' (n / 10) +:+ String (digit n) EmptyString
  end.

Definition str_date (d : date) : string :=
  zero_padded 4 (year d) +:+ "-" +:+ zero_padded 2 (month d) +:+ "-"
  +:+ zero_padded 2 (day d).

(** ** The [Applicant] schema (pydantic [BaseModel])

    One constructor per declared field, in declaration order. *)

Inductive field :=
  | region | batch | zone | woreda | kebele
  | first_name | father_name | grandfather_name
  | date_of_birth | date_collected | sex | applicant_address
  | has_business_license
  | trade_license_number | trade | registration_number | tin_number
  | date_of_business_license
  | enterprise_category | ownership_form | business_sector
  | number_of_owners | owners_names | registered_address
  | business_premise | male_employees | female_employees
  | business_capital_etb | monthly_revenue_etb | annual_revenue_last3
  | net_profit_last3 | financing_required_etb
  | source_of_repayment | purpose_of_funds
  | guarantor_first_name | guarantor_father_name
  | guarantor_grandfather_name | guarantor_phone
  | guarantor_monthly_income
  | credit_history | cbe_account_number | cbe_branch | cbe_city
  | mode_of_finance.

Definition fields : list field :=
  [ region; batch; zone; woreda; kebele;
    first_name; father_name; grandfather_name;
    date_of_birth; date_collected; sex; applicant_address;
    has_business_license;
    trade_license_number; trade; registration_number; tin_number;
    date_of_business_license;
    enterprise_category; ownership_form; business_sector;
    number_of_owners; owners_names; registered_address;
    business_premise; male_employees; female_employees;
    business_capital_etb; monthly_revenue_etb; annual_revenue_last3;
    net_profit_last3; financing_required_etb;
    source_of_repayment; purpose_of_funds;
    guarantor_first_name; guarantor_father_name;
    guarantor_grandfather_name; guarantor_phone;
    guarantor_monthly_income;
    credit_history; cbe_account_number; cbe_branch; cbe_city;
    mode_of_finance ].

(** The type annotations of the class body. *)
Inductive pytype := TStr | TDate | TBool | TInt | TFloat | TOptional (t : pytype).

Fixpoint python (t : pytype) : Type :=
  match t with
  | TStr => string
  | TDate => date
  | TBool => bool
  | TInt => Z
  | TFloat => float
  | TOptional t' => option (python t')
  end.

Definition annotation (f : field) : pytype :=
  match f with
  | date_of_birth | date_collected => TDate
  | has_business_license => TBool
  | trade_license_number | trade | registration_number | tin_number =>
      TOptional TStr
  | date_of_business_license => TOptional TDate
  | number_of_owners | male_employees | female_employees => TInt
  | business_capital_etb | monthly_revenue_etb | annual_revenue_last3
  | net_profit_last3 | financing_required_etb | guarantor_monthly_income =>
      TFloat
  | _ => TStr
  end.

(** The declared default ([= None] on the five optional fields); a field
    without one is required. *)
Definition default_value (f : field) : option (python (annotation f)) :=
  match f as f0 return option (python (annotation f0)) with
  | trade_license_number => Some None
  | trade => Some None
  | registration_number => Some None
  | tin_number => Some None
  | date_of_business_license => Some None
  | _ => None
  end.

Definition required (f : field) : bool :=
  match default_value f with Some _ => false | None => true end.

(** The keyword (and column) name of a field. *)
Definition name (f : field) : string :=
  match f with
  | region => "region" | batch => "batch" | zone => "zone"
  | woreda => "woreda" | kebele => "kebele"
  | first_name => "first_name" | father_name => "father_name"
  | grandfather_name => "grandfather_name"
  | date_of_birth => "date_of_birth" | date_collected => "date_collected"
  | sex => "sex" | applicant_address => "applicant_address"
  | has_business_license => "has_business_license"
  | trade_license_number => "trade_license_number" | trade => "trade"
  | registration_number => "registration_number"
  | tin_number => "tin_number"
  | date_of_business_license => "date_of_business_license"
  | enterprise_category => "enterprise_category"
  | ownership_form => "ownership_form"
  | business_sector => "business_sector"
  | number_of_owners => "number_of_owners"
  | owners_names => "owners_names"
  | registered_address => "registered_address"
  | business_premise => "business_premise"
  | male_employees => "male_employees"
  | female_employees => "female_employees"
  | business_capital_etb => "business_capital_etb"
  | monthly_revenue_etb => "monthly_revenue_etb"
  | annual_revenue_last3 => "annual_revenue_last3"
  | net_profit_last3 => "net_profit_last3"
  | financing_required_etb => "financing_required_etb"
  | source_of_repayment => "source_of_repayment"
  | purpose_of_funds => "purpose_of_funds"
  | guarantor_first_name => "guarantor_first_name"
  | guarantor_father_name => "guarantor_father_name"
  | guarantor_grandfather_name => "guarantor_grandfather_name"
  | guarantor_phone => "guarantor_phone"
  | guarantor_monthly_income => "guarantor_monthly_income"
  | credit_history => "credit_history"
  | cbe_account_number => "cbe_account_number"
  | cbe_branch => "cbe_branch" | cbe_city => "cbe_city"
  | mode_of_finance => "mode_of_finance"
  end.

(** Keyword arguments of a call [Applicant(...)]: for each field either no
    keyword ([None]) or a value of the annotated type, which is what the
    form passes. *)
Definition kwargs : Type := forall f : field, option (python (annotation f)).

(** [v in [...]] on strings. *)
Definition str_in (v : string) (l : list string) : bool :=
  existsb (String.eqb v) l.

(** A field check returns the value or the message of the error raised. *)
Definition checked (A : Type) : Type := (string + A)%type.

(** [Field(pattern="^(m|f)$")]. *)
Definition pattern_m_f (v : string) : checked string :=
  if str_in v ["m"; "f"] then inr v
  else inl "String should match pattern '^(m|f)$'".

Definition v1 (v : string) : checked string :=
  if negb (str_in v ["micro"; "small"; "medium"; "startup"])
  then inl "Value error, Invalid enterprise category" else inr v.

Definition v2 (v : string) : checked string :=
  if negb (str_in v ["soleproprietorship"; "partnership"; "plc"])
  then inl "Value error, Invalid ownership form" else inr v.

Definition v3 (v : string) : checked string :=
  if negb (str_in v ["manufacturing"; "construction"; "agriculture";
                     "mining"; "service"; "others"])
  then inl "Value error, Invalid business sector" else inr v.

Definition v4 (v : string) : checked string :=
  if negb (str_in v ["rented"; "applicant_owned"; "government"])
  then inl "Value error, Invalid business premise" else inr v.

Definition v5 (v : string) : checked string :=
  if negb (str_in v ["conventional"; "ifb"])
  then inl "Value error, Invalid mode of finance" else inr v.

(** The constraint and validators attached to a field; a value of the
    annotated type passes the type check itself. *)
Definition field_validator (f : field)
  : python (annotation f) -> checked (python (annotation f)) :=
  match f as f0
        return python (annotation f0) -> checked (python (annotation f0)) with
  | sex => pattern_m_f
  | enterprise_category => v1
  | ownership_form => v2
  | business_sector => v3
  | business_premise => v4
  | mode_of_finance => v5
  | _ => fun v => inr v
  end.

(** One field of the model: a missing keyword takes the default, or is an
    error on a required field; defaults are not validated. *)
Definition validate_field (f : field) (x : option (python (annotation f)))
  : checked (python (annotation f)) :=
  match x with
  | Some v => field_validator f v
  | None =>
      match default_value f with
      | Some d => inr d
      | None => inl "Field required"
      end
  end.

(** The errors of a [ValidationError]: every failing field with its
    message, in declaration order. *)
Definition ValidationError : Type := list (field * string).

Definition field_errors (kw : kwargs) (f : field) : ValidationError :=
  match validate_field f (kw f) with
  | inl msg => [(f, msg)]
  | inr _ => []
  end.

Definition errors (kw : kwargs) : ValidationError :=
  flat_map (field_errors kw) fields.

Definition blank (t : pytype) : python t :=
  match t with
  | TStr => EmptyString
  | TDate => mk_date 1 1 1
  | TBool => false
  | TInt => 0
  | TFloat => 0%float
  | TOptional _ => None
  end.

(** A model instance: the validated value of every attribute. *)
Definition instance : Type := forall f : field, python (annotation f).

(** The call [Applicant] with keyword arguments [kw]: all fields are validated and the errors collected;
    the instance is built only when there is none (in which case every
    field has a validated value, see [Applicant_inr_fields]). *)
Definition Applicant (kw : kwargs) : ValidationError + instance :=
  match errors kw with
  | [] =>
      inr (fun f => match validate_field f (kw f) with
                    | inr v => v
                    | inl _ => blank (annotation f)
                    end)
  | errs => inl errs
  end.

(** ** Configuration, session and external libraries *)

(** [st.secrets]: the four recognised options, each possibly absent. *)
Record secrets := {
  SUPABASE_URL : option string;
  SUPABASE_ANON_KEY : option string;
  SUPABASE_SERVICE_ROLE_KEY : option string;
  ADMIN_EMAILS : option string
}.

Definition truthy_opt (o : option string) : bool :=
  match o with Some s => truthy s | None => false end.

(** The module-level clients: [supabase] exists when URL and anon key
    are set, [supabase_admin] when in addition the service-role key is. *)
Definition supabase (cfg : secrets) : bool :=
  truthy_opt (SUPABASE_URL cfg) && truthy_opt (SUPABASE_ANON_KEY cfg).

Definition supabase_admin (cfg : secrets) : bool :=
  supabase cfg && truthy_opt (SUPABASE_SERVICE_ROLE_KEY cfg).

Fixpoint admin_entries (parts : list string) : list string :=
  match parts with
  | [] => []
  | e :: rest =>
      if truthy (strip e) then lower (strip e) :: admin_entries rest
      else admin_entries rest
  end.

Definition APP_ADMIN_EMAILS (cfg : secrets) : list string :=
  admin_entries (split "," (default EmptyString (ADMIN_EMAILS cfg))).

(** [st.session_state]: [user] is [None] or the dict with keys [email]
    and [id]; [role] is the value under the key [role] ([JNull] when the
    key is absent, as [.get] returns [None]). *)
Record session_user := { user_email : string; user_id : scalar }.

Record session_state := { user : option session_user; role : scalar }.

(** [v == s] for a stored value [v] and a string literal [s]. *)
Definition is_str (v : scalar) (s : string) : bool :=
  match v with JStr t => String.eqb t s | _ => false end.

Definition is_admin (cfg : secrets) (ss : session_state) (email : string)
  : bool :=
  if truthy email && str_in (lower email) (APP_ADMIN_EMAILS cfg) then true
  else is_str (role ss) "admin".

(** [json.dumps] and [json.loads] on records; [loads] is [None] when the
    text does not parse.  The text [dumps] gives lists the items in the
    dict's insertion order, which nothing below observes. *)
Class Json := {
  dumps : record -> string;
  loads : string -> option record
}.

(** [bcrypt.hashpw] with the salt [gensalt()] drew, and [bcrypt.checkpw],
    which is [None] when it raises on a malformed hash. *)
Class Bcrypt := {
  hashpw : string -> string -> string;
  checkpw : string -> string -> option bool
}.

Definition hash_pwd `{Bcrypt} (p salt : string) : string := hashpw p salt.
Definition check_pwd `{Bcrypt} (p h : string) : option bool := checkpw p h.

(** ** The local line files *)

Definition NL : string := String LF EmptyString.

(** Text-mode reading translates CR LF and a lone CR to LF. *)
Fixpoint universal_newlines (s : string) : string :=
  match s with
  | EmptyString => EmptyString
  | String c s' =>
      if Ascii.eqb c CR then
        match s' with
        | String c' s'' =>
            if Ascii.eqb c' LF then String LF (universal_newlines s'')
            else String LF (universal_newlines s')
        | EmptyString => String LF EmptyString
        end
      else String c (universal_newlines s')
  end.

(** [for line in f]: the lines with their terminator, the last one
    without when the text does not end in a line feed. *)
Fixpoint readlines (cur : string) (s : string) : list string :=
  match s with
  | EmptyString => match cur with EmptyString => [] | _ => [cur] end
  | String c s' =>
      if Ascii.eqb c LF then (cur +:+ NL) :: readlines EmptyString s'
      else readlines (cur +:+ String c EmptyString) s'
  end.

Section Files.
Context `{Json}.

Definition save_jsonl (path : string) (obj : record)
    (fs : gmap string string) : gmap string string :=
  <[path := default EmptyString (fs !! path) +:+ dumps obj +:+ NL]> fs.

(** The loop of [load_jsonl]: blank lines are skipped, a line that does
    not parse raises. *)
Fixpoint parse_lines (lines : list string) : option (list record) :=
  match lines with
  | [] => Some []
  | line :: rest =>
      if truthy (strip line) then
        match loads line with
        | Some r => cons r <$> parse_lines rest
        | None => None
        end
      else parse_lines rest
  end.

Definition load_jsonl (path : string) (fs : gmap string string)
    : option (list record) :=
  match fs !! path with
  | None => Some []
  | Some text => parse_lines (readlines EmptyString (universal_newlines text))
  end.

(** Rewriting a file from rows, one [dumps] line each (mode [w]). *)
Fixpoint jsonl_text (rows : list record) : string :=
  match rows with
  | [] => EmptyString
  | r :: rest => dumps r +:+ NL +:+ jsonl_text rest
  end.
End Files.

(** ** Identifiers *)

Definition nth_char (alphabet : string) (d : Z) : ascii :=
  nth (Z.to_nat d) (list_ascii_of_string alphabet) "0"%char.

(** [n] written with [w] digits in base [base], most significant first. *)
Fixpoint digits (alphabet : string) (base : Z) (w : nat) (n : Z) : string :=
  match w with
  | O => EmptyString
  | S w' =>
      digits alphabet base w' (n / base)
      +:+ String (nth_char alphabet (n mod base)) EmptyString
  end.

Definition crockford : string := "0123456789ABCDEFGHJKMNPQRSTVWXYZ".

(** [str(ULID())] for the clock reading [ms] (milliseconds, 48 bits) and
    the 80 random bits [rnd]: ten Crockford base-32 characters of
    timestamp, then sixteen of randomness. *)
Definition str_ULID (ms rnd : Z) : string :=
  digits crockford 32 10 ms +:+ digits crockford 32 16 rnd.

(** [uuid.uuid4()] from 16 random bytes: variant and version bits forced. *)
Definition uuid4 (rnd : Z) : Z :=
  let i := rnd mod 2 ^ 128 in
  let i := Z.land i (Z.lnot (Z.shiftl 49152 48)) in
  let i := Z.lor i (Z.shiftl 32768 48) in
  let i := Z.land i (Z.lnot (Z.shiftl 61440 64)) in
  Z.lor i (Z.shiftl 4 76).

(** [str(u)] of a UUID: 32 hex digits grouped 8-4-4-4-12. *)
Definition str_UUID (i : Z) : string :=
  let h := digits "0123456789abcdef" 16 32 i in
  substring 0 8 h +:+ "-" +:+ substring 8 4 h +:+ "-" +:+ substring 12 4 h
  +:+ "-" +:+ substring 16 4 h +:+ "-" +:+ substring 20 12 h.

(** The identifier a new user gets on the local backend:
    [str(uuid.uuid4())] for the random draw [fresh]. *)
Definition new_user_id (fresh : Z) : string := str_UUID (uuid4 fresh).

(** [sorted(ids)]: strings compare by code point, lexicographically. *)
Fixpoint insert_sorted (x : string) (l : list string) : list string :=
  match l with
  | [] => [x]
  | y :: l' => if String.leb x y then x :: l else y :: insert_sorted x l'
  end.

Fixpoint sorted (l : list string) : list string :=
  match l with
  | [] => []
  | x :: l' => insert_sorted x (sorted l')
  end.

(** ** The hosted tables

    A table is the list of its rows in listing order.  Columns the
    database fills in itself and its row-level policies are not part of
    the script and are not modelled. *)

(** The filter [.eq(col, v)] on a text or integer column. *)
Definition eq_filter (col : string) (v : scalar) (r : record) : bool :=
  match r !! col, v with
  | Some (JStr a), JStr b => String.eqb a b
  | Some (JInt a), JInt b => Z.eqb a b
  | _, _ => false
  end.

Definition select_eq (col : string) (v : scalar) (rows : list record)
  : list record :=
  List.filter (eq_filter col v) rows.

(** [.update(change).eq(col, v)]. *)
Definition update_eq (change : record) (col : string) (v : scalar)
    (rows : list record) : list record :=
  map (fun r => if eq_filter col v r then change ∪ r else r) rows.

(** ** The state the script runs against *)

Record world := {
  files : gmap string string;        (* the files under data/ *)
  remote_users : list record;        (* table users *)
  remote_applicants : list record;   (* table applicants *)
  session : session_state
}.

Definition set_files (fs : gmap string string) (w : world) : world :=
  {| files := fs; remote_users := remote_users w;
     remote_applicants := remote_applicants w; session := session w |}.

Definition set_remote_users (rows : list record) (w : world) : world :=
  {| files := files w; remote_users := rows;
     remote_applicants := remote_applicants w; session := session w |}.

Definition set_remote_applicants (rows : list record) (w : world) : world :=
  {| files := files w; remote_users := remote_users w;
     remote_applicants := rows; session := session w |}.

Definition set_session (ss : session_state) (w : world) : world :=
  {| files := files w; remote_users := remote_users w;
     remote_applicants := remote_applicants w; session := ss |}.

Definition users_path : string := "data/users.jsonl".
Definition applicants_path : string := "data/applicants.jsonl".

(** What a handler run shows: a message box, the field errors of a
    rejected form, a rerun after sign-in, or an uncaught exception. *)
Inductive shown :=
  | st_error (msg : string)
  | st_error_fields (errs : ValidationError)
  | st_success (msg : string)
  | rerun
  | raised.

(** ** The collector form *)

(** What the widget of a field returns: the four optional texts come
    from plain text inputs; every other widget already has the annotated
    type ([has_business_license] is the comparison of the select box
    with [Yes], the licence date input may be empty). *)
Definition widget (f : field) : pytype :=
  match f with
  | trade_license_number | trade | registration_number | tin_number => TStr
  | _ => annotation f
  end.

Definition form : Type := forall f : field, python (widget f).

(** [s or None]. *)
Definition or_None (s : string) : option string :=
  if truthy s then Some s else None.

(** The arguments the submit handler passes for each keyword. *)
Definition arguments (w : form) : instance :=
  fun f =>
    match f as f0 return python (widget f0) -> python (annotation f0) with
    | trade_license_number => or_None
    | trade => or_None
    | registration_number => or_None
    | tin_number => or_None
    | date_of_business_license =>
        fun d => if (w has_business_license : bool) then d else None
    | _ => fun v => v
    end (w f).

Definition call_kwargs (a : instance) : kwargs := fun f => Some (a f).

(** The stored form of a value: dates as [str(d)], [None] as null. *)
Fixpoint to_scalar (t : pytype) : python t -> scalar :=
  match t with
  | TStr => JStr
  | TDate => fun d => JStr (str_date d)
  | TBool => JBool
  | TInt => JInt
  | TFloat => JFloat
  | TOptional t' =>
      fun o => match o with Some v => to_scalar t' v | None => JNull end
  end.

Definition columns (a : instance) : record :=
  foldr (fun f m => <[name f := to_scalar (annotation f) (a f)]> m) ∅ fields.

(** What the environment supplies to one submission: the clock reading
    and random bits of [ULID()], and whether the hosted insert returned
    the inserted rows. *)
Record submit_env := {
  clock_ms : Z;
  random_bits : Z;
  insert_returned_rows : bool
}.

(** The identifier of a new applicant record: [str(ULID())]. *)
Definition new_applicant_id (env : submit_env) : string :=
  str_ULID (clock_ms env) (random_bits env).

Section Pages.
Context `{Json} `{Bcrypt}.
Variable cfg : secrets.

(** *** [login_box], the Sign in button *)

(** The local comprehension over the users file; a row without a text
    [email] raises. *)
Fixpoint rows_with_email (email : string) (rows : list record)
    : option (list record) :=
  match rows with
  | [] => Some []
  | r :: rest =>
      match r !! "email" with
      | Some (JStr e) =>
          tl ← rows_with_email email rest;
          Some (if String.eqb (lower e) (lower email) then r :: tl else tl)
      | _ => None
      end
  end.

Definition find_user (email : string) (w : world) : option (list record) :=
  if supabase cfg then
    Some (select_eq "email" (JStr email) (remote_users w))
  else
    rows ← load_jsonl users_path (files w);
    rows_with_email email rows.

Definition login_box (email password : string) (fresh : Z) (w : world)
    : shown * world :=
  match find_user email w with
  | None => (raised, w)
  | Some [] => (st_error "User not found", w)
  | Some (u :: _) =>
      match u !! "password_hash" with
      | Some (JStr h) =>
          match check_pwd password h with
          | Some true =>
              let uid := default (JStr (new_user_id fresh)) (u !! "id") in
              let r := default (JStr "collector") (u !! "role") in
              (rerun,
               set_session
                 {| user := Some {| user_email := email; user_id := uid |};
                    role := r |} w)
          | Some false => (st_error "Incorrect password", w)
          | None => (raised, w)
          end
      | _ => (raised, w)
      end
  end.

(** *** [admin_create_user_box], the Create User button *)

Definition user_record (email role_sel pwd1 salt : string) : record :=
  <["email" := JStr (lower email)]>
    (<["password_hash" := JStr (hash_pwd pwd1 salt)]>
       (<["role" := JStr role_sel]> ∅)).

Definition admin_create_user_box (email role_sel pwd1 pwd2 : string)
    (salt : string) (fresh : Z) (w : world) : shown * world :=
  let caller :=
    match user (session w) with Some u => user_email u | None => EmptyString end in
  if negb (is_admin cfg (session w) caller) then
    (st_error "Admins only", w)
  else if negb (String.eqb pwd1 pwd2) || (Z.of_nat (String.length pwd1) <? 6) then
    (st_error "Passwords must match and be at least 6 chars", w)
  else
    let rec := user_record email role_sel pwd1 salt in
    if supabase_admin cfg then
      (st_success "User created",
       set_remote_users (remote_users w ++ [rec]) w)
    else
      (st_success "User created",
       set_files
         (save_jsonl users_path
            (<["id" := JStr (new_user_id fresh)]> rec) (files w)) w).

(** *** [collector_page], the Save Applicant button *)

Definition applicant_record (a : instance) (uid collected_by : scalar)
    : record :=
  <["id" := uid]> (<["collected_by" := collected_by]> (columns a)).

Definition collector_page (wd : form) (env : submit_env) (w : world)
    : shown * world :=
  let a := arguments wd in
  match Applicant (call_kwargs a) with
  | inl errs => (st_error_fields errs, w)
  | inr _ =>
      match user (session w) with
      | None => (raised, w)
      | Some u =>
          let rec :=
            applicant_record a
              (JStr (new_applicant_id env))
              (user_id u) in
          if supabase cfg then
            if insert_returned_rows env then
              (st_success "Saved to cloud",
               set_remote_applicants (remote_applicants w ++ [rec]) w)
            else (st_error "Cloud save failed", w)
          else
            (st_success "Saved locally (demo mode)",
             set_files (save_jsonl applicants_path rec (files w)) w)
      end
  end.

(** *** [admin_page] *)

(** The rows the dashboard loads. *)
Definition admin_rows (w : world) : option (list record) :=
  if supabase_admin cfg then Some (remote_applicants w)
  else if supabase cfg then Some (remote_applicants w)
  else load_jsonl applicants_path (files w).

(** The Update Credit History button on row [idx]. *)
Definition admin_page_update (idx : nat) (new_credit : string) (w : world)
    : shown * world :=
  match user (session w) with
  | None => (raised, w)
  | Some u =>
      if negb (is_admin cfg (session w) (user_email u)) then
        (st_error "Admins only", w)
      else
        match admin_rows w with
        | None => (raised, w)
        | Some rows =>
            match rows !! idx with
            | None => (raised, w)
            | Some row =>
                if supabase_admin cfg then
                  match row !! "id" with
                  | None => (raised, w)
                  | Some rid =>
                      (st_success "Updated",
                       set_remote_applicants
                         (update_eq {["credit_history" := JStr new_credit]}
                            "id" rid (remote_applicants w)) w)
                  end
                else
                  let rows' :=
                    <[idx := <["credit_history" := JStr new_credit]> row]> rows in
                  (st_success "Updated",
                   set_files
                     (<[applicants_path := jsonl_text rows']> (files w)) w)
            end
        end
  end.
End Pages.

(** ** Notions used to state the properties *)

(** The text a keyword carries, when its field is a plain [str]. *)
Definition as_text (t : pytype) : python t -> option string :=
  match t with
  | TStr => fun s => Some s
  | _ => fun _ => None
  end.

Definition text (kw : kwargs) (f : field) : option string :=
  v ← kw f; as_text (annotation f) v.

(** The closed value sets of the schema: the pattern of [sex] and the
    lists of [v1] to [v5]. *)
Definition enumeration (f : field) : option (list string) :=
  match f with
  | sex => Some ["m"; "f"]
  | enterprise_category => Some ["micro"; "small"; "medium"; "startup"]
  | ownership_form => Some ["soleproprietorship"; "partnership"; "plc"]
  | business_sector =>
      Some ["manufacturing"; "construction"; "agriculture"; "mining";
            "service"; "others"]
  | business_premise => Some ["rented"; "applicant_owned"; "government"]
  | mode_of_finance => Some ["conventional"; "ifb"]
  | _ => None
  end.

Definition enumerated (f : field) : bool :=
  match enumeration f with Some _ => true | None => false end.

(** A field is violated when it is required and missing, or enumerated
    and outside its value set. *)
Definition violation (kw : kwargs) (f : field) : bool :=
  match kw f with
  | None => required f
  | Some _ =>
      match enumeration f, text kw f with
      | Some allowed, Some s => negb (str_in s allowed)
      | _, _ => false
      end
  end.

Definition names (errs : ValidationError) : list field := map fst errs.

(** The constraints the form is meant to guarantee, field by field. *)
Fixpoint dates_valid (t : pytype) : python t -> bool :=
  match t with
  | TDate => valid_date
  | TOptional t' =>
      fun o => match o with Some v => dates_valid t' v | None => true end
  | _ => fun _ => true
  end.

Definition non_empty (t : pytype) : python t -> bool :=
  match t with
  | TStr => truthy
  | _ => fun _ => true
  end.

Definition non_negative (t : pytype) : python t -> bool :=
  match t with
  | TInt => fun n => 0 <=? n
  | TFloat => fun x => PrimFloat.leb 0 x
  | _ => fun _ => true
  end.

(** The numeric inputs declared with a minimum (all but the net
    profit or loss). *)
Definition has_minimum (f : field) : bool :=
  match f with
  | number_of_owners | male_employees | female_employees
  | business_capital_etb | monthly_revenue_etb | annual_revenue_last3
  | financing_required_etb | guarantor_monthly_income => true
  | _ => false
  end.

Definition in_enumeration (f : field) (v : python (annotation f)) : bool :=
  match enumeration f, as_text (annotation f) v with
  | Some allowed, Some s => str_in s allowed
  | _, _ => true
  end.

Definition satisfies (f : field) (v : python (annotation f)) : bool :=
  (if required f then non_empty (annotation f) v else true)
  && in_enumeration f v
  && dates_valid (annotation f) v
  && (if has_minimum f then non_negative (annotation f) v else true).

Definition satisfies_constraints (kw : kwargs) : Prop :=
  forall f, match kw f with
            | Some v => satisfies f v = true
            | None => required f = false
            end.

(** ** Sample data *)

Definition sample (t : pytype) : python t :=
  match t with
  | TStr => "Adama"
  | TDate => mk_date 1990 1 1
  | TBool => true
  | TInt => 2
  | TFloat => 1500%float
  | TOptional TDate => Some (mk_date 2020 2 29)
  | TOptional _ => None
  end.

(** A filled-in form: every enumerated input on one of its options. *)
Definition sample_form : form :=
  fun f =>
    match f as f0 return python (widget f0) with
    | sex => "f"
    | enterprise_category => "micro"
    | ownership_form => "plc"
    | business_sector => "service"
    | business_premise => "rented"
    | mode_of_finance => "ifb"
    | g => sample (widget g)
    end.

(** The same form with one input changed. *)
Definition with_region (s : string) (wd : form) : form :=
  fun f =>
    match f as f0 return python (widget f0) -> python (widget f0) with
    | region => fun _ => s
    | _ => fun v => v
    end (wd f).

Definition with_sex (s : string) (wd : form) : form :=
  fun f =>
    match f as f0 return python (widget f0) -> python (widget f0) with
    | sex => fun _ => s
    | _ => fun v => v
    end (wd f).

(** Keyword arguments with one keyword left out. *)
Definition without_region (kw : kwargs) : kwargs :=
  fun f =>
    match f as f0
          return option (python (annotation f0)) -> option (python (annotation f0))
    with
    | region => fun _ => None
    | _ => fun v => v
    end (kw f).

Definition sample_kwargs : kwargs := call_kwargs (arguments sample_form).

(** ** Laws, orders and sample data used in the properties *)

Definition accepted (r : ValidationError + instance) : bool :=
  match r with inr _ => true | inl _ => false end.

(** No line break inside the text. *)
Fixpoint one_line (s : string) : bool :=
  match s with
  | EmptyString => true
  | String c s' => negb (Ascii.eqb c LF) && negb (Ascii.eqb c CR) && one_line s'
  end.

Fixpoint all_space (s : string) : bool :=
  match s with
  | EmptyString => true
  | String c s' => is_space c && all_space s'
  end.

(** What the model relies on: [json.dumps] writes one line that is not
    blank, and [json.loads] reads the record back from that line with
    its terminator. *)
Class JsonLaws `{Json} : Prop := {
  loads_dumps : forall r, loads (dumps r +:+ NL) = Some r;
  dumps_one_line : forall r, one_line (dumps r) = true;
  dumps_not_blank : forall r, all_space (dumps r) = false
}.

(** A small lawful codec and password scheme, for examples: a record is
    written as an opening brace followed by the binary digits of its
    code. *)
Module Toy.

Fixpoint bits (p : positive) : string :=
  match p with
  | xH => EmptyString
  | xO p' => String "0" (bits p')
  | xI p' => String "1" (bits p')
  end.

(** Reads binary digits up to the first other character. *)
Fixpoint of_bits (s : string) : positive :=
  match s with
  | EmptyString => xH
  | String c s' =>
      if Ascii.eqb c "0" then xO (of_bits s')
      else if Ascii.eqb c "1" then xI (of_bits s')
      else xH
  end.

#[local] Instance spec_float_eq_dec : EqDecision SpecFloat.spec_float.
Proof. solve_decision. Defined.

#[local] Instance spec_float_countable : Countable SpecFloat.spec_float :=
  inj_countable'
    (fun x => match x with
              | SpecFloat.S754_zero s => inl (inl s)
              | SpecFloat.S754_infinity s => inl (inr s)
              | SpecFloat.S754_nan => inr (inl tt)
              | SpecFloat.S754_finite s m e => inr (inr (s, m, e))
              end)
    (fun y => match y with
              | inl (inl s) => SpecFloat.S754_zero s
              | inl (inr s) => SpecFloat.S754_infinity s
              | inr (inl _) => SpecFloat.S754_nan
              | inr (inr (s, m, e)) => SpecFloat.S754_finite s m e
              end)
    (fun x => match x with
              | SpecFloat.S754_zero _ | SpecFloat.S754_infinity _
              | SpecFloat.S754_nan | SpecFloat.S754_finite _ _ _ => eq_refl
              end).

#[local] Instance float_eq_dec : EqDecision float :=
  fun x y =>
    match decide (Prim2SF x = Prim2SF y) with
    | left e => left (Prim2SF_inj x y e)
    | right n => right (fun e => n (f_equal Prim2SF e))
    end.

#[local] Instance float_countable : Countable float :=
  inj_countable' Prim2SF SF2Prim SF2Prim_Prim2SF.

#[local] Instance scalar_eq_dec : EqDecision scalar.
Proof. solve_decision. Defined.

#[local] Instance scalar_countable : Countable scalar :=
  inj_countable'
    (fun v => match v with
              | JNull => inl (inl tt)
              | JBool b => inl (inr b)
              | JInt n => inr (inl n)
              | JFloat x => inr (inr (inl x))
              | JStr s => inr (inr (inr s))
              end)
    (fun y => match y with
              | inl (inl _) => JNull
              | inl (inr b) => JBool b
              | inr (inl n) => JInt n
              | inr (inr (inl x)) => JFloat x
              | inr (inr (inr s)) => JStr s
              end)
    (fun v => match v with
              | JNull | JBool _ | JInt _ | JFloat _ | JStr _ => eq_refl
              end).

Definition json : Json := {|
  dumps := fun r => String "{" (bits (encode r));
  loads := fun s =>
    match s with
    | String c b => if Ascii.eqb c "{" then decode (of_bits b) else None
    | EmptyString => None
    end
|}.

(** Eight decimal digits mixed from the password's code points. *)
Fixpoint mix (acc : Z) (p : string) : Z :=
  match p with
  | EmptyString => acc
  | String c p' => mix ((acc * 31 + Z.of_N (code c)) mod 100000000) p'
  end.

Definition digest (p : string) : string := zero_padded 8 (mix 7 p).

Definition bcrypt : Bcrypt := {|
  hashpw := fun p salt => salt +:+ digest p;
  checkpw := fun p h =>
    if Nat.ltb (String.length h) 8 then None
    else Some (String.eqb (substring (String.length h - 8) 8 h) (digest p))
|}.

End Toy.

(** The case-insensitive comparison of two addresses. *)
Definition same_email (a b : string) : Prop := lower a = lower b.

Fixpoint no_CR (s : string) : bool :=
  match s with
  | EmptyString => true
  | String c s' => negb (Ascii.eqb c CR) && no_CR s'
  end.

(** The text some rows are stored as is what the program writes for
    them, whether line by line or in one rewrite; a missing file stores
    no row. *)
Definition stored `{Json} (path : string) (rows : list record)
    (fs : gmap string string) : Prop :=
  match fs !! path with
  | Some content => content = jsonl_text rows
  | None => rows = []
  end.

(** Strictly below, in the order [sorted] uses. *)
Definition str_lt (a b : string) : Prop := String.compare a b = Lt.

(** The characters at positions below [n] of an alphabet go up. *)
Definition alphabet_increasing (alphabet : string) (n : nat) : bool :=
  let l := list_ascii_of_string alphabet in
  forallb (fun i =>
    forallb (fun j =>
      implb (Nat.ltb i j) (Ascii.ltb (nth i l "0"%char) (nth j l "0"%char)))
      (seq 0 n)) (seq 0 n).

Definition applicant_ids (envs : list submit_env) : list string :=
  map new_applicant_id envs.

Definition user_ids (draws : list Z) : list string := map new_user_id draws.

Definition row_a : record :=
  <["id" := JStr "01HF7YAT000000000000000C1S"]>
    (<["first_name" := JStr "Abebe"]> (<["credit_history" := JStr "none"]> ∅)).

Definition row_b : record :=
  <["id" := JStr "01HF7YAT010000000000000C1T"]>
    (<["first_name" := JStr "Sara"]> (<["credit_history" := JStr "good"]> ∅)).

(** Sample configurations and states. *)
Definition cfg_service : secrets :=
  {| SUPABASE_URL := Some "https://edi.supabase.co";
     SUPABASE_ANON_KEY := Some "anon-key";
     SUPABASE_SERVICE_ROLE_KEY := Some "service-key";
     ADMIN_EMAILS := Some "boss@edi.et" |}.

Definition cfg_anon : secrets :=
  {| SUPABASE_URL := Some "https://edi.supabase.co";
     SUPABASE_ANON_KEY := Some "anon-key";
     SUPABASE_SERVICE_ROLE_KEY := None;
     ADMIN_EMAILS := Some "boss@edi.et" |}.

Definition cfg_local : secrets :=
  {| SUPABASE_URL := None; SUPABASE_ANON_KEY := None;
     SUPABASE_SERVICE_ROLE_KEY := None;
     ADMIN_EMAILS := Some "boss@edi.et" |}.

Definition clerk_row : record :=
  <["id" := JStr "7d9f2c1e-58a4-4b1c-9f0e-3a6b5c4d2e1f"]>
    (@user_record Toy.bcrypt "clerk@edi.et" "collector" "secret1" "$2b$12$").

Definition signed_out : session_state :=
  {| user := None; role := JStr "collector" |}.

Definition boss_session : session_state :=
  {| user := Some {| user_email := "boss@edi.et"; user_id := JStr "u-1" |};
     role := JStr "collector" |}.

Definition clerk_session : session_state :=
  {| user := Some {| user_email := "clerk@edi.et";
                     user_id := JStr "7d9f2c1e-58a4-4b1c-9f0e-3a6b5c4d2e1f" |};
     role := JStr "collector" |}.

Definition hosted (ss : session_state) : world :=
  {| files := ∅; remote_users := [clerk_row];
     remote_applicants := [row_a; row_b]; session := ss |}.

(** Why a sign-in fails. *)
Inductive login_failure := unknown_email | wrong_password.

Definition failure_message (c : login_failure) : string :=
  match c with
  | unknown_email => "User not found"
  | wrong_password => "Incorrect password"
  end.

Section SignIn.
Context `{Json} `{Bcrypt}.

(** No row matches, or the first matching row's hash rejects the
    password. *)
Definition login_fails (cfg : secrets) (email password : string)
    (w : world) (c : login_failure) : Prop :=
  match c with
  | unknown_email => find_user cfg email w = Some []
  | wrong_password =>
      exists u rest h,
        find_user cfg email w = Some (u :: rest)
        /\ u !! "password_hash" = Some (JStr h)
        /\ check_pwd password h = Some false
  end.
End SignIn.

(** The local files after one user and two applicants were saved. *)
Definition disk : gmap string string :=
  @save_jsonl Toy.json applicants_path row_b
    (@save_jsonl Toy.json applicants_path row_a
       (@save_jsonl Toy.json users_path clerk_row ∅)).

Definition on_disk (ss : session_state) : world :=
  {| files := disk; remote_users := []; remote_applicants := [];
     session := ss |}.

Definition hosted_anon_world : world := hosted boss_session.

(** The four text inputs that are passed as [s or None]. *)
Definition optional_text (f : field) : bool :=
  match f with
  | trade_license_number | trade | registration_number | tin_number => true
  | _ => false
  end.

(** The same form with the licence select box on [No]. *)
Definition without_licence (wd : form) : form :=
  fun f =>
    match f as f0 return python (widget f0) -> python (widget f0) with
    | has_business_license => fun _ => false
    | _ => fun v => v
    end (wd f).

(** The same form with the trade input left blank. *)
Definition with_trade (s : string) (wd : form) : form :=
  fun f =>
    match f as f0 return python (widget f0) -> python (widget f0) with
    | trade => fun _ => s
    | _ => fun v => v
    end (wd f).

Definition sample_env : submit_env :=
  {| clock_ms := 1700000000000; random_bits := 12345;
     insert_returned_rows := true |}.

Definition boss_row : record :=
  <["id" := JStr "0b1e6f0a-1c2d-4e3f-8a9b-5c6d7e8f9a0b"]>
    (@user_record Toy.bcrypt "boss@edi.et" "admin" "topsecret" "$2b$12$").

Definition hosted_with_boss : world :=
  {| files := ∅; remote_users := [boss_row; clerk_row];
     remote_applicants := [row_a; row_b]; session := signed_out |}.

(** What the model relies on for bcrypt: a hash made from a password
    accepts that password. *)
Class BcryptLaws `{Bcrypt} : Prop := {
  checkpw_hashpw : forall p salt, checkpw p (hashpw p salt) = Some true
}.

(** ** Start-up helpers *)

(** [get_role_from_query]: [st.query_params] maps each key of the URL to
    a string, so [.get("role", ["user"])] is that string when the key is
    present and the one-element list otherwise; [[0]] then takes the
    first character of the string (raising on an empty one, [None]
    here) or the element of the list. *)
Definition get_role_from_query (query_params : gmap string string)
  : option string :=
  match query_params !! "role" with
  | Some EmptyString => None
  | Some (String c _) => Some (String c EmptyString)
  | None => Some "user"
  end.

(** The route at the end of the script. *)
Inductive page := admin_page_shown | collector_page_shown.

Definition route (role : string) : page :=
  if String.eqb role "admin" then admin_page_shown else collector_page_shown.

(** [open(path, "w").close()] on a path that does not exist. *)
Definition create_if_missing (path : string) (fs : gmap string string)
  : gmap string string :=
  match fs !! path with
  | Some _ => fs
  | None => <[path := EmptyString]> fs
  end.

(** [ensure_tables_exist]: without the hosted client, the users file
    and then the applicants file are created empty when missing. *)
Definition ensure_tables_exist (cfg : secrets) (fs : gmap string string)
  : gmap string string :=
  if negb (supabase cfg) then
    create_if_missing applicants_path (create_if_missing users_path fs)
  else fs.

(** The text of some rows with CR LF line ends, as another program may
    have written the file. *)
Fixpoint jsonl_text_crlf `{Json} (rows : list record) : string :=
  match rows with
  | [] => EmptyString
  | r :: rest =>
      dumps r +:+ String CR (String LF EmptyString) +:+ jsonl_text_crlf rest
  end.

(** ** One run of the script

    A run is started by one interaction: a button pressed with the
    inputs of its form, or none.  The run reads the role from the URL,
    creates the local files, stops after the login box when nobody is
    signed in, and otherwise shows the page of the route.  The session
    is taken as initialised (keys [user] and [role] present). *)
Inductive interaction :=
  | press_sign_in (email password : string) (fresh : Z)
  | press_save_applicant (wd : form) (env : submit_env)
  | press_update_credit (idx : nat) (new_credit : string)
  | no_press.

Section Script.
Context `{Json} `{Bcrypt}.
Variable cfg : secrets.

Definition script (query_params : gmap string string) (a : interaction)
    (w : world) : option shown * world :=
  match get_role_from_query query_params with
  | None => (Some raised, w)
  | Some role =>
      let w1 := set_files (ensure_tables_exist cfg (files w)) w in
      match user (session w1) with
      | None =>
          match a with
          | press_sign_in email password fresh =>
              let r := login_box cfg email password fresh w1 in
              (Some (fst r), snd r)
          | _ => (None, w1)
          end
      | Some _ =>
          match route role, a with
          | admin_page_shown, press_update_credit idx new_credit =>
              let r := admin_page_update cfg idx new_credit w1 in
              (Some (fst r), snd r)
          | collector_page_shown, press_save_applicant wd env =>
              let r := collector_page cfg wd env w1 in
              (Some (fst r), snd r)
          | _, _ => (None, w1)
          end
      end
  end.
End Script.

(** ** More sample data *)

(** A user row that has no [email]. *)
Definition row_without_email : record :=
  <["id" := JStr "u-9"]> (<["role" := JStr "collector"]> ∅).

(** ** Passwords bcrypt hashes *)

(** The length of [p.encode()]: one byte for a code point below 128,
    two for the others of the range modelled. *)
Fixpoint utf8_length (p : string) : Z :=
  match p with
  | EmptyString => 0
  | String c p' => (if (code c <? 128)%N then 1 else 2) + utf8_length p'
  end.

Fixpoint no_NUL (p : string) : bool :=
  match p with
  | EmptyString => true
  | String c p' => negb (code c =? 0)%N && no_NUL p'
  end.

(** The passwords every version of bcrypt hashes without raising: at
    most 72 bytes and no NUL.  [hashpw] stands for the result on these;
    what it gives on other passwords has no counterpart in versions
    that refuse them. *)
Definition hashable (p : string) : bool :=
  (utf8_length p <=? 72) && no_NUL p.

(** * Properties *)

(** ** The schema validator *)

Lemma all_fields (f : field) : In f fields.
Proof.
  destruct f; unfold fields;
    repeat first [ left; reflexivity | right ].
Qed.

Lemma in_errors (kw : kwargs) (f : field) (msg : string) :
  In (f, msg) (errors kw) <-> validate_field f (kw f) = inl msg.
Proof.
  unfold errors. rewrite in_flat_map. split.
  - intros [g [_ Hin]]. unfold field_errors in Hin.
    destruct (validate_field g (kw g)) as [m|v] eqn:E; simpl in Hin.
    + destruct Hin as [Heq|[]]. inversion Heq; subst. exact E.
    + destruct Hin.
  - intros E. exists f. split; [apply all_fields|].
    unfold field_errors. rewrite E. left. reflexivity.
Qed.

Lemma errors_nil (kw : kwargs) :
  errors kw = [] -> forall f, exists v, validate_field f (kw f) = inr v.
Proof.
  intros E f. destruct (validate_field f (kw f)) as [m|v] eqn:V.
  - apply in_errors in V. rewrite E in V. destruct V.
  - exists v. reflexivity.
Qed.

Lemma Applicant_inl (kw : kwargs) (errs : ValidationError) :
  Applicant kw = inl errs -> errs = errors kw /\ errs <> [].
Proof.
  unfold Applicant. destruct (errors kw) as [|e es] eqn:E.
  - discriminate.
  - intros Heq. inversion Heq; subst. split; [reflexivity | discriminate].
Qed.

Lemma Applicant_rejects (kw : kwargs) (f : field) (msg : string) :
  validate_field f (kw f) = inl msg -> Applicant kw = inl (errors kw).
Proof.
  intros V. apply in_errors in V. unfold Applicant.
  destruct (errors kw) as [|e es]; [destruct V | reflexivity].
Qed.

(** On success every attribute is the validated value of its field: the
    fallback in [Applicant] is never taken. *)
Lemma Applicant_inr_fields (kw : kwargs) (a : instance) :
  Applicant kw = inr a -> forall f, validate_field f (kw f) = inr (a f).
Proof.
  unfold Applicant. destruct (errors kw) as [|e es] eqn:E; [|discriminate].
  intros Heq f. inversion Heq; subst.
  destruct (errors_nil kw E f) as [v V]. rewrite V. reflexivity.
Qed.

Lemma Applicant_accepts (kw : kwargs) :
  (forall f, exists v, validate_field f (kw f) = inr v) ->
  exists a, Applicant kw = inr a.
Proof.
  intros Hall. unfold Applicant.
  destruct (errors kw) as [|[f msg] es] eqn:E.
  - eexists. reflexivity.
  - assert (Hin : In (f, msg) (errors kw)) by (rewrite E; left; reflexivity).
    apply in_errors in Hin. destruct (Hall f) as [v V]. congruence.
Qed.

(** The validators return their argument or fail. *)
Lemma field_validator_inr (f : field) (v v' : python (annotation f)) :
  field_validator f v = inr v' -> v' = v.
Proof.
  destruct f; simpl in *;
    unfold pattern_m_f, v1, v2, v3, v4, v5;
    try (intros Heq; inversion Heq; reflexivity);
    match goal with |- context [str_in ?a ?b] => destruct (str_in a b) end;
    simpl; intros Heq; inversion Heq; reflexivity.
Qed.

(** A field with a value set fails exactly on the values outside it. *)
Lemma field_validator_enumerated (f : field) (v : python (annotation f))
    (allowed : list string) (s : string) :
  enumeration f = Some allowed -> as_text (annotation f) v = Some s ->
  (exists msg, field_validator f v = inl msg) <-> str_in s allowed = false.
Proof.
  destruct f; simpl; try discriminate;
    intros Ha Hs; inversion Ha; subst; inversion Hs; subst;
    unfold pattern_m_f, v1, v2, v3, v4, v5;
    match goal with |- context [str_in ?a ?b] => destruct (str_in a b) end;
    simpl; split;
    solve [ reflexivity | discriminate | intros [m Hm]; discriminate
          | eexists; reflexivity ].
Qed.

Lemma field_validator_plain (f : field) (v : python (annotation f)) :
  enumeration f = None -> field_validator f v = inr v.
Proof. destruct f; simpl; try discriminate; reflexivity. Qed.

Lemma violation_fails (kw : kwargs) (f : field) :
  violation kw f = true -> exists msg, validate_field f (kw f) = inl msg.
Proof.
  unfold violation, validate_field, text.
  destruct (kw f) as [v|] eqn:K; simpl.
  - destruct (enumeration f) as [allowed|] eqn:En; [|discriminate].
    destruct (as_text (annotation f) v) as [s|] eqn:Tx; [|discriminate].
    intros Hv. apply (field_validator_enumerated f v allowed s En Tx).
    destruct (str_in s allowed); [discriminate | reflexivity].
  - unfold required. destruct (default_value f); [discriminate|].
    intros _. eexists. reflexivity.
Qed.

Lemma in_names (errs : ValidationError) (f : field) :
  In f (names errs) <-> exists msg, In (f, msg) errs.
Proof.
  unfold names. rewrite in_map_iff. split.
  - intros [[g m] [Hg Hin]]. simpl in Hg. subst. exists m. exact Hin.
  - intros [m Hin]. exists (f, m). split; [reflexivity | exact Hin].
Qed.

Lemma empty_not_enumerated (f : field) (allowed : list string) :
  enumeration f = Some allowed -> str_in EmptyString allowed = false.
Proof.
  destruct f; simpl; try discriminate;
    intros Heq; inversion Heq; reflexivity.
Qed.

(** C1, as stated, fails: a form whose required [region] is the empty
    string validates. *)
Lemma C1_blank_region_accepted :
  required region = true
  /\ text (call_kwargs (arguments (with_region EmptyString sample_form))) region
     = Some EmptyString
  /\ accepted (Applicant (call_kwargs (arguments (with_region EmptyString sample_form))))
     = true.
Proof. repeat split; vm_compute; reflexivity. Qed.

(** C1 (amended): when a required string field is the empty string, the
    submission is rejected, naming that field, if the field is [sex] or
    one of the five enumerated fields; on any other required string
    field the empty string raises no error, so no rejection names it. *)
Theorem C1_empty_required_field (kw : kwargs) (f : field) :
  required f = true -> text kw f = Some EmptyString ->
  if enumerated f
  then exists errs, Applicant kw = inl errs /\ In f (names errs)
  else forall errs, Applicant kw = inl errs -> ~ In f (names errs).
Proof.
  intros _ Ht. unfold enumerated.
  destruct (enumeration f) as [allowed|] eqn:En.
  - assert (Hv : violation kw f = true).
    { unfold violation. rewrite En, Ht.
      unfold text in Ht. destruct (kw f); [|discriminate].
      rewrite (empty_not_enumerated f allowed En). reflexivity. }
    destruct (violation_fails kw f Hv) as [msg V].
    exists (errors kw). split.
    + exact (Applicant_rejects kw f msg V).
    + apply in_names. exists msg. apply in_errors. exact V.
  - intros errs Hrej Hin.
    apply Applicant_inl in Hrej. destruct Hrej as [-> _].
    apply in_names in Hin. destruct Hin as [msg Hin].
    apply in_errors in Hin.
    unfold text in Ht. destruct (kw f) as [v|] eqn:K; [|discriminate].
    unfold validate_field in Hin.
    rewrite (field_validator_plain f v En) in Hin. discriminate.
Qed.

Lemma C1_empty_required_field_witness :
  exists errs,
    Applicant (call_kwargs (arguments (with_sex EmptyString sample_form)))
    = inl errs
    /\ In sex (names errs).
Proof.
  exact (C1_empty_required_field
           (call_kwargs (arguments (with_sex EmptyString sample_form)))
           sex eq_refl eq_refl).
Defined.

Lemma satisfies_validates (f : field) (v : python (annotation f)) :
  in_enumeration f v = true -> field_validator f v = inr v.
Proof.
  unfold in_enumeration.
  destruct (enumeration f) as [allowed|] eqn:En.
  - destruct (as_text (annotation f) v) as [s|] eqn:Tx.
    + intros Hin.
      destruct (field_validator f v) as [msg|v'] eqn:V.
      * assert (Hex : exists m, field_validator f v = inl m) by (eexists; exact V).
        apply (field_validator_enumerated f v allowed s En Tx) in Hex.
        congruence.
      * apply field_validator_inr in V. subst. reflexivity.
    + destruct f; simpl in *; discriminate.
  - intros _. apply field_validator_plain. exact En.
Qed.

(** C3: a candidate whose every field satisfies its constraint is
    accepted, and every attribute of the instance is the value passed in
    (or the declared default of an optional field left out). *)
Theorem C3_valid_candidate_preserved (kw : kwargs) :
  satisfies_constraints kw ->
  exists a : instance,
    Applicant kw = inr a
    /\ forall f, match kw f with
                 | Some v => a f = v
                 | None => default_value f = Some (a f)
                 end.
Proof.
  intros Hok.
  assert (Hall : forall f, exists v, validate_field f (kw f) = inr v).
  { intros f. specialize (Hok f). unfold validate_field.
    destruct (kw f) as [v|].
    - exists v. apply satisfies_validates.
      unfold satisfies in Hok.
      repeat (apply andb_prop in Hok; destruct Hok as [Hok ?]). assumption.
    - unfold required in Hok. destruct (default_value f) as [d|]; [|discriminate].
      exists d. reflexivity. }
  destruct (Applicant_accepts kw Hall) as [a Ha].
  exists a. split; [exact Ha|].
  intros f. pose proof (Applicant_inr_fields kw a Ha f) as Hf.
  unfold validate_field in Hf. destruct (kw f) as [v|].
  - apply field_validator_inr in Hf. exact Hf.
  - destruct (default_value f) as [d|]; [|discriminate].
    inversion Hf. reflexivity.
Qed.

Lemma sample_kwargs_satisfy : satisfies_constraints sample_kwargs.
Proof. intros f. destruct f; vm_compute; reflexivity. Qed.

Lemma C3_valid_candidate_preserved_witness :
  exists a : instance,
    Applicant sample_kwargs = inr a
    /\ forall f, match sample_kwargs f with
                 | Some v => a f = v
                 | None => default_value f = Some (a f)
                 end.
Proof. exact (C3_valid_candidate_preserved sample_kwargs sample_kwargs_satisfy). Defined.

(** ** The sample codec is lawful *)

Lemma Toy_of_bits_bits (p : positive) (rest : string) :
  Toy.of_bits (Toy.bits p +:+ String LF rest) = p.
Proof. induction p; simpl; [rewrite IHp | rewrite IHp |]; reflexivity. Qed.

Lemma Toy_bits_one_line (p : positive) : one_line (Toy.bits p) = true.
Proof. induction p; simpl; auto. Qed.

Lemma Toy_json_laws : @JsonLaws Toy.json.
Proof.
  split.
  - intros r. simpl. unfold NL. rewrite Toy_of_bits_bits.
    apply decode_encode.
  - intros r. simpl. apply Toy_bits_one_line.
  - intros r. reflexivity.
Qed.

(** ** Rejected submissions *)

Lemma errors_ext (kw kw' : kwargs) :
  (forall f, kw f = kw' f) -> errors kw = errors kw'.
Proof.
  intros Heq. unfold errors. apply flat_map_ext. intros f.
  unfold field_errors. rewrite Heq. reflexivity.
Qed.

Lemma collector_page_rejected `{Json} (cfg : secrets) (wd : form)
    (env : submit_env) (w : world) (f : field) (msg : string) :
  validate_field f (Some (arguments wd f)) = inl msg ->
  collector_page cfg wd env w
  = (st_error_fields (errors (call_kwargs (arguments wd))), w).
Proof.
  intros V. unfold collector_page.
  rewrite (Applicant_rejects (call_kwargs (arguments wd)) f msg V).
  reflexivity.
Qed.

(** C2: a candidate with a violated field (a required field missing, or
    an enumerated field outside its value set) is rejected as a whole;
    the failure names every violated field; and a form that passes such
    a candidate leaves the store as it was. *)
Theorem C2_violations_rejected `{Json} (kw : kwargs) (f : field) :
  violation kw f = true ->
  exists errs,
    Applicant kw = inl errs
    /\ (forall g, violation kw g = true -> In g (names errs))
    /\ (forall cfg wd env w,
          (forall g, call_kwargs (arguments wd) g = kw g) ->
          collector_page cfg wd env w = (st_error_fields errs, w)).
Proof.
  intros Hv. destruct (violation_fails kw f Hv) as [msg V].
  exists (errors kw). split; [|split].
  - exact (Applicant_rejects kw f msg V).
  - intros g Hg. destruct (violation_fails kw g Hg) as [m Vg].
    apply in_names. exists m. apply in_errors. exact Vg.
  - intros cfg wd env w Hkw.
    rewrite <- (errors_ext _ _ Hkw).
    apply (collector_page_rejected cfg wd env w f msg).
    specialize (Hkw f). unfold call_kwargs in Hkw. rewrite Hkw. exact V.
Qed.

Lemma C2_violations_rejected_witness :
  exists errs,
    Applicant (call_kwargs (arguments (with_sex "x" sample_form))) = inl errs
    /\ (forall g,
          violation (call_kwargs (arguments (with_sex "x" sample_form))) g = true ->
          In g (names errs))
    /\ (forall cfg wd env w,
          (forall g, call_kwargs (arguments wd) g
                     = call_kwargs (arguments (with_sex "x" sample_form)) g) ->
          @collector_page Toy.json cfg wd env w = (st_error_fields errs, w)).
Proof.
  exact (@C2_violations_rejected Toy.json
           (call_kwargs (arguments (with_sex "x" sample_form))) sex eq_refl).
Defined.

(** A missing required keyword is reported as well, together with the
    other violations. *)
Example missing_and_invalid_reported :
  Applicant (without_region (call_kwargs (arguments (with_sex "x" sample_form))))
  = inl [(region, "Field required");
         (sex, "String should match pattern '^(m|f)$'")].
Proof. vm_compute. reflexivity. Qed.

(** ** The access guard *)

Lemma lower_char_idem (c : ascii) : lower_char (lower_char c) = lower_char c.
Proof.
  destruct c as [b0 b1 b2 b3 b4 b5 b6 b7];
    destruct b0, b1, b2, b3, b4, b5, b6, b7; vm_compute; reflexivity.
Qed.

Lemma lower_idem (s : string) : lower (lower s) = lower s.
Proof.
  induction s as [|c s IH]; simpl; [reflexivity|].
  rewrite lower_char_idem, IH. reflexivity.
Qed.

Lemma truthy_lower (s : string) : truthy (lower s) = truthy s.
Proof. destruct s; reflexivity. Qed.





(** The allow-list is read with blanks trimmed and empty entries
    dropped. *)
Example allow_list_parsed :
  APP_ADMIN_EMAILS
    {| SUPABASE_URL := None; SUPABASE_ANON_KEY := None;
       SUPABASE_SERVICE_ROLE_KEY := None;
       ADMIN_EMAILS := Some " Boss@EDI.et ,, clerk@edi.et" |}
  = ["boss@edi.et"; "clerk@edi.et"].
Proof. vm_compute. reflexivity. Qed.

(** ** The local files *)

Lemma append_cons (x : ascii) (a b : string) :
  String x a +:+ b = String x (a +:+ b).
Proof. reflexivity. Qed.

Lemma append_nil_l (b : string) : EmptyString +:+ b = b.
Proof. reflexivity. Qed.

Lemma append_assoc (a b c : string) : (a +:+ b) +:+ c = a +:+ (b +:+ c).
Proof.
  induction a as [|x a IH]; [reflexivity|].
  rewrite !append_cons, IH. reflexivity.
Qed.

Lemma append_nil_r (a : string) : a +:+ EmptyString = a.
Proof.
  induction a as [|x a IH]; [reflexivity|].
  rewrite append_cons, IH. reflexivity.
Qed.

Lemma no_CR_app (a b : string) : no_CR (a +:+ b) = no_CR a && no_CR b.
Proof.
  induction a as [|x a IH]; [reflexivity|].
  rewrite append_cons. simpl. rewrite IH, andb_assoc. reflexivity.
Qed.

Lemma one_line_no_CR (s : string) : one_line s = true -> no_CR s = true.
Proof.
  induction s as [|c s IH]; simpl; [reflexivity|].
  intros Hl. apply andb_prop in Hl. destruct Hl as [Hc Hs].
  apply andb_prop in Hc. destruct Hc as [_ Hc].
  rewrite Hc, (IH Hs). reflexivity.
Qed.

Lemma universal_newlines_id (s : string) :
  no_CR s = true -> universal_newlines s = s.
Proof.
  induction s as [|c s IH]; simpl; [reflexivity|].
  intros Hn. apply andb_prop in Hn. destruct Hn as [Hc Hs].
  destruct (Ascii.eqb c CR); [discriminate|].
  rewrite (IH Hs). reflexivity.
Qed.

(** Reading splits off a first line that has no line break of its own. *)
Lemma readlines_line (a cur rest : string) :
  one_line a = true ->
  readlines cur (a +:+ NL +:+ rest)
  = (cur +:+ a +:+ NL) :: readlines EmptyString rest.
Proof.
  revert cur. induction a as [|c a IH]; intros cur.
  - intros _. reflexivity.
  - simpl one_line. intros Hl. apply andb_prop in Hl. destruct Hl as [Hc Ha].
    apply andb_prop in Hc. destruct Hc as [Hc _].
    rewrite append_cons. simpl readlines.
    destruct (Ascii.eqb c LF); [discriminate|].
    rewrite (IH _ Ha), append_assoc. reflexivity.
Qed.

Lemma truthy_rstrip (s : string) : truthy (rstrip s) = negb (all_space s).
Proof.
  induction s as [|c s IH]; simpl; [reflexivity|].
  destruct (rstrip s) as [|x r]; simpl in *.
  - destruct (is_space c); simpl; [exact IH | reflexivity].
  - rewrite <- (negb_involutive (all_space s)), <- IH.
    rewrite andb_false_r. reflexivity.
Qed.

Lemma all_space_lstrip (s : string) : all_space (lstrip s) = all_space s.
Proof.
  induction s as [|c s IH]; simpl; [reflexivity|].
  destruct (is_space c) eqn:Sp; simpl; [exact IH|].
  rewrite Sp. reflexivity.
Qed.

Lemma truthy_strip (s : string) : truthy (strip s) = negb (all_space s).
Proof. unfold strip. rewrite truthy_rstrip, all_space_lstrip. reflexivity. Qed.

Lemma all_space_app (a b : string) :
  all_space (a +:+ b) = all_space a && all_space b.
Proof.
  induction a as [|x a IH]; [reflexivity|].
  rewrite append_cons. simpl. rewrite IH, andb_assoc. reflexivity.
Qed.

Section LocalFiles.
Context `{JsonLaws}.

Lemma parse_line (r : record) (rest : list string) :
  parse_lines ((dumps r +:+ NL) :: rest) = cons r <$> parse_lines rest.
Proof.
  simpl. rewrite truthy_strip, all_space_app, dumps_not_blank, loads_dumps.
  reflexivity.
Qed.

Lemma no_CR_jsonl_text (rows : list record) : no_CR (jsonl_text rows) = true.
Proof.
  induction rows as [|r rows IH]; simpl; [reflexivity|].
  rewrite !no_CR_app, IH, (one_line_no_CR _ (dumps_one_line r)).
  reflexivity.
Qed.

Lemma parse_jsonl_text (rows : list record) :
  parse_lines (readlines EmptyString (jsonl_text rows)) = Some rows.
Proof.
  induction rows as [|r rows IH]; simpl jsonl_text; [reflexivity|].
  rewrite (readlines_line _ _ _ (dumps_one_line r)).
  rewrite append_nil_l, parse_line, IH. reflexivity.
Qed.

Lemma jsonl_text_app (rows : list record) (r : record) :
  jsonl_text (rows ++ [r]) = jsonl_text rows +:+ dumps r +:+ NL.
Proof.
  induction rows as [|x rows IH]; simpl.
  - rewrite append_nil_r. reflexivity.
  - rewrite IH, !append_assoc. reflexivity.
Qed.

Lemma load_stored (path : string) (rows : list record)
    (fs : gmap string string) :
  stored path rows fs -> load_jsonl path fs = Some rows.
Proof.
  unfold stored, load_jsonl. destruct (fs !! path) as [content|].
  - intros ->. rewrite (universal_newlines_id _ (no_CR_jsonl_text rows)).
    apply parse_jsonl_text.
  - intros ->. reflexivity.
Qed.

Lemma stored_save (path : string) (rows : list record) (r : record)
    (fs : gmap string string) :
  stored path rows fs -> stored path (rows ++ [r]) (save_jsonl path r fs).
Proof.
  unfold stored, save_jsonl. rewrite lookup_insert_eq.
  destruct (fs !! path) as [content|]; simpl.
  - intros ->. rewrite jsonl_text_app. reflexivity.
  - intros ->. simpl. rewrite append_nil_r. reflexivity.
Qed.

Lemma stored_rewrite (path : string) (rows : list record)
    (fs : gmap string string) :
  stored path rows (<[path := jsonl_text rows]> fs).
Proof. unfold stored. rewrite lookup_insert_eq. reflexivity. Qed.

Lemma stored_other (path path' : string) (rows : list record)
    (content : string) (fs : gmap string string) :
  path <> path' ->
  stored path rows fs -> stored path rows (<[path' := content]> fs).
Proof.
  intros Hne. unfold stored. rewrite lookup_insert_ne by congruence.
  intros Hs. exact Hs.
Qed.
End LocalFiles.

Lemma stored_missing `{Json} (path : string) : stored path [] ∅.
Proof. unfold stored. rewrite lookup_empty. reflexivity. Qed.

(** C10: on a file that stores [rows], appending [r] with [save_jsonl]
    and reading with [load_jsonl] gives [rows] with [r] at the end, so
    every earlier record is still there, unchanged and in place. *)
Theorem C10_save_then_load `{JsonLaws} (path : string) (rows : list record)
    (r : record) (fs : gmap string string) :
  stored path rows fs ->
  load_jsonl path fs = Some rows
  /\ load_jsonl path (save_jsonl path r fs) = Some (rows ++ [r]).
Proof.
  intros Hs. split.
  - apply load_stored. exact Hs.
  - apply load_stored. apply stored_save. exact Hs.
Qed.

(** ** Identifiers *)

Lemma crockford_increasing : alphabet_increasing crockford 32 = true.
Proof. vm_compute. reflexivity. Qed.

Lemma nth_char_lt (i j : Z) :
  0 <= i < j -> j < 32 ->
  Ascii.compare (nth_char crockford i) (nth_char crockford j) = Lt.
Proof.
  intros Hij Hj. pose proof crockford_increasing as Hinc.
  unfold alphabet_increasing in Hinc.
  rewrite forallb_forall in Hinc.
  specialize (Hinc (Z.to_nat i)).
  rewrite forallb_forall in Hinc.
  assert (Hi : In (Z.to_nat i) (seq 0 32)) by (apply in_seq; lia).
  assert (Hj' : In (Z.to_nat j) (seq 0 32)) by (apply in_seq; lia).
  specialize (Hinc Hi (Z.to_nat j) Hj').
  assert (Hlt : Nat.ltb (Z.to_nat i) (Z.to_nat j) = true)
    by (apply Nat.ltb_lt; lia).
  rewrite Hlt in Hinc. simpl in Hinc.
  unfold nth_char. unfold Ascii.ltb in Hinc.
  destruct (Ascii.compare _ _); [discriminate | reflexivity | discriminate].
Qed.

Lemma ascii_compare_refl (c : ascii) : Ascii.compare c c = Eq.
Proof. unfold Ascii.compare. apply N.compare_refl. Qed.

Lemma compare_refl (s : string) : String.compare s s = Eq.
Proof.
  induction s as [|c s IH]; simpl; [reflexivity|].
  rewrite ascii_compare_refl. exact IH.
Qed.

Lemma length_append (a b : string) :
  String.length (a +:+ b) = (String.length a + String.length b)%nat.
Proof.
  induction a as [|x a IH]; [reflexivity|].
  rewrite append_cons. simpl. rewrite IH. reflexivity.
Qed.

Lemma str_lt_irrefl (s : string) : ~ str_lt s s.
Proof. unfold str_lt. rewrite compare_refl. discriminate. Qed.

(** A smaller prefix of the same length decides the comparison. *)
Lemma str_lt_app (a b c d : string) :
  String.length a = String.length b -> str_lt a b -> str_lt (a +:+ c) (b +:+ d).
Proof.
  unfold str_lt. revert b.
  induction a as [|x a IH]; intros [|y b]; simpl; try discriminate.
  intros Hlen. rewrite ?append_cons. simpl.
  destruct (Ascii.compare x y); try (intros; assumption).
  apply IH. lia.
Qed.

Lemma compare_common_prefix (a c d : string) :
  String.compare (a +:+ c) (a +:+ d) = String.compare c d.
Proof.
  induction a as [|x a IH]; [reflexivity|].
  rewrite ?append_cons. simpl. rewrite ascii_compare_refl. exact IH.
Qed.

Lemma length_digits (alphabet : string) (base : Z) (w : nat) (n : Z) :
  String.length (digits alphabet base w n) = w.
Proof.
  revert n. induction w as [|w IH]; intros n; simpl; [reflexivity|].
  rewrite length_append, IH. simpl. lia.
Qed.

(** Base-32 text of a fixed width keeps the order of the numbers. *)
Lemma digits_lt (w : nat) (x y : Z) :
  0 <= x < y -> y < 32 ^ Z.of_nat w ->
  str_lt (digits crockford 32 w x) (digits crockford 32 w y).
Proof.
  revert x y. induction w as [|w IH]; intros x y Hxy Hy.
  - simpl in Hy. lia.
  - rewrite Nat2Z.inj_succ, Z.pow_succ_r in Hy by lia.
    simpl digits.
    pose proof (Z.div_mod x 32 ltac:(lia)) as Hx.
    pose proof (Z.div_mod y 32 ltac:(lia)) as Hy'.
    pose proof (Z.mod_pos_bound x 32 ltac:(lia)) as Bx.
    pose proof (Z.mod_pos_bound y 32 ltac:(lia)) as By.
    assert (Hle : x / 32 <= y / 32) by (apply Z.div_le_mono; lia).
    destruct (Z.eq_dec (x / 32) (y / 32)) as [Heq|Hne].
    + rewrite Heq. unfold str_lt. rewrite compare_common_prefix. simpl.
      rewrite nth_char_lt by lia. reflexivity.
    + apply str_lt_app; [rewrite !length_digits; reflexivity|].
      apply IH; [|apply Z.div_lt_upper_bound; lia].
      split; [apply Z.div_pos; lia | lia].
Qed.

(** An earlier millisecond gives a smaller identifier, whatever the
    random parts. *)
Lemma str_ULID_lt (ms1 ms2 rnd1 rnd2 : Z) :
  0 <= ms1 < ms2 -> ms2 < 2 ^ 48 ->
  str_lt (str_ULID ms1 rnd1) (str_ULID ms2 rnd2).
Proof.
  intros Hms Hb. unfold str_ULID.
  apply str_lt_app; [rewrite !length_digits; reflexivity|].
  apply digits_lt; [exact Hms|]. simpl. lia.
Qed.

Lemma sorted_strongly_sorted (l : list string) :
  StronglySorted str_lt l -> sorted l = l.
Proof.
  induction 1 as [|x l Hs IH Hall]; simpl; [reflexivity|].
  rewrite IH. destruct l as [|y l']; simpl; [reflexivity|].
  inversion Hall as [|? ? Hxy _]; subst.
  unfold String.leb. unfold str_lt in Hxy. rewrite Hxy. reflexivity.
Qed.

Lemma NoDup_strongly_sorted (l : list string) :
  StronglySorted str_lt l -> List.NoDup l.
Proof.
  induction 1 as [|x l Hs IH Hall]; constructor; [|exact IH].
  intros Hin. rewrite List.Forall_forall in Hall.
  exact (str_lt_irrefl x (Hall x Hin)).
Qed.

Lemma applicant_ids_strongly_sorted (envs : list submit_env) :
  Forall (fun e => 0 <= clock_ms e < 2 ^ 48) envs ->
  StronglySorted Z.lt (map clock_ms envs) ->
  StronglySorted str_lt (applicant_ids envs).
Proof.
  induction envs as [|e envs IH]; simpl; intros Hr Hs; [constructor|].
  inversion Hr as [|? ? He Hr']; subst.
  inversion Hs as [|? ? Hs' Hall]; subst.
  constructor; [exact (IH Hr' Hs')|].
  unfold applicant_ids. rewrite List.Forall_forall. intros s Hin.
  apply in_map_iff in Hin. destruct Hin as [e' [<- Hin]].
  rewrite List.Forall_forall in Hall, Hr'.
  specialize (Hall (clock_ms e') (in_map clock_ms _ _ Hin)).
  specialize (Hr' e' Hin). simpl in Hr'.
  unfold new_applicant_id. apply str_ULID_lt; lia.
Qed.

(** C4, as stated, fails for users: on the local backend their
    identifiers are random UUIDs, and two draws in decreasing order give
    identifiers whose sorted order is not the creation order. *)
Lemma C4_user_ids_not_in_creation_order :
  sorted (user_ids [2 ^ 128 - 1; 0]) <> user_ids [2 ^ 128 - 1; 0].
Proof. vm_compute. discriminate. Qed.

(** C4 (amended): for applicant records, on either backend, created at
    strictly increasing clock readings (48-bit milliseconds), the
    identifiers issued are pairwise distinct, and sorting them lexically
    gives exactly the creation order. *)
Theorem C4_applicant_ids_in_creation_order (envs : list submit_env) :
  Forall (fun e => 0 <= clock_ms e < 2 ^ 48) envs ->
  StronglySorted Z.lt (map clock_ms envs) ->
  List.NoDup (applicant_ids envs)
  /\ sorted (applicant_ids envs) = applicant_ids envs.
Proof.
  intros Hr Hs.
  pose proof (applicant_ids_strongly_sorted envs Hr Hs) as Hss.
  split; [apply NoDup_strongly_sorted | apply sorted_strongly_sorted]; exact Hss.
Qed.

Lemma C4_applicant_ids_in_creation_order_witness :
  List.NoDup
    (applicant_ids
       [ {| clock_ms := 1700000000000; random_bits := 2 ^ 80 - 1;
            insert_returned_rows := true |};
         {| clock_ms := 1700000000001; random_bits := 0;
            insert_returned_rows := true |} ])
  /\ sorted
       (applicant_ids
          [ {| clock_ms := 1700000000000; random_bits := 2 ^ 80 - 1;
               insert_returned_rows := true |};
            {| clock_ms := 1700000000001; random_bits := 0;
               insert_returned_rows := true |} ])
     = applicant_ids
         [ {| clock_ms := 1700000000000; random_bits := 2 ^ 80 - 1;
              insert_returned_rows := true |};
           {| clock_ms := 1700000000001; random_bits := 0;
              insert_returned_rows := true |} ].
Proof.
  apply C4_applicant_ids_in_creation_order.
  - repeat constructor; simpl; lia.
  - repeat constructor; simpl; lia.
Defined.

(** The record a successful submission stores carries that identifier,
    on the hosted table as in the local file. *)
Lemma applicant_record_id (a : instance) (uid collected_by : scalar) :
  applicant_record a uid collected_by !! "id" = Some uid.
Proof. unfold applicant_record. apply lookup_insert_eq. Qed.

Lemma collector_page_saved `{Json} (cfg : secrets) (wd : form)
    (env : submit_env) (w : world) (a : instance) (u : session_user) :
  Applicant (call_kwargs (arguments wd)) = inr a ->
  user (session w) = Some u ->
  let rec := applicant_record (arguments wd)
               (JStr (new_applicant_id env)) (user_id u) in
  collector_page cfg wd env w
  = if supabase cfg then
      if insert_returned_rows env then
        (st_success "Saved to cloud",
         set_remote_applicants (remote_applicants w ++ [rec]) w)
      else (st_error "Cloud save failed", w)
    else
      (st_success "Saved locally (demo mode)",
       set_files (save_jsonl applicants_path rec (files w)) w).
Proof.
  intros Ha Hu. unfold collector_page. rewrite Ha, Hu. reflexivity.
Qed.

Lemma C10_save_then_load_witness :
  @load_jsonl Toy.json applicants_path
    (@save_jsonl Toy.json applicants_path row_a ∅) = Some ([] ++ [row_a])
  /\ @load_jsonl Toy.json applicants_path
       (@save_jsonl Toy.json applicants_path row_b
          (@save_jsonl Toy.json applicants_path row_a ∅))
     = Some (([] ++ [row_a]) ++ [row_b]).
Proof.
  apply (@C10_save_then_load Toy.json Toy_json_laws).
  apply (@stored_save Toy.json).
  apply stored_missing.
Defined.

(** ** Sign-in *)

(** The hosted lookup keeps the rows whose address is exactly the one
    typed; the local one compares both sides in lower case. *)
Lemma select_eq_email (email : string) (rows : list record) (r : record) :
  In r (select_eq "email" (JStr email) rows)
  <-> In r rows /\ r !! "email" = Some (JStr email).
Proof.
  unfold select_eq. rewrite List.filter_In. unfold eq_filter.
  split; intros [Hin Hr]; (split; [exact Hin|]).
  - destruct (r !! "email") as [[| | | |e]|]; try discriminate.
    apply String.eqb_eq in Hr. subst. reflexivity.
  - rewrite Hr. apply String.eqb_refl.
Qed.

Lemma rows_with_email_spec (email : string) (rows found : list record)
    (r : record) :
  rows_with_email email rows = Some found ->
  In r found
  <-> In r rows /\ exists e, r !! "email" = Some (JStr e) /\ same_email e email.
Proof.
  unfold same_email. revert found.
  induction rows as [|x rows IH]; simpl; intros found Hf.
  - inversion Hf; subst. simpl. tauto.
  - destruct (x !! "email") as [[| | | |e]|] eqn:E; try discriminate.
    destruct (rows_with_email email rows) as [tl|] eqn:R; [|discriminate].
    simpl in Hf. specialize (IH tl eq_refl).
    destruct (String.eqb (lower e) (lower email)) eqn:Q;
      inversion Hf; subst; simpl.
    + apply String.eqb_eq in Q. rewrite IH. split.
      * intros [->|[Hin Hex]]; [|tauto]. split; [tauto|]. eauto.
      * intros [[->|Hin] Hex]; tauto.
    + apply String.eqb_neq in Q. rewrite IH. split.
      * intros [Hin Hex]. tauto.
      * intros [[->|Hin] [e' [He' Hq]]]; [|eauto].
        rewrite E in He'. inversion He'; subst. contradiction.
Qed.

(** C8, as stated, fails: an unknown address and a wrong password are
    reported with different messages. *)
Lemma C8_failures_distinguished :
  @login_box Toy.json Toy.bcrypt cfg_service "nobody@edi.et" "secret1" 7
    (hosted signed_out)
  = (st_error "User not found", hosted signed_out)
  /\ @login_box Toy.json Toy.bcrypt cfg_service "clerk@edi.et" "secret2" 7
       (hosted signed_out)
     = (st_error "Incorrect password", hosted signed_out)
  /\ st_error "User not found" <> st_error "Incorrect password".
Proof. repeat split; [vm_compute; reflexivity .. | discriminate]. Qed.

(** C8 (amended): every failing sign-in leaves the state as it was, so
    no session is established, and shows a message that tells the two
    causes apart: [User not found] when no user matches, [Incorrect
    password] when the stored hash rejects the password. *)
Theorem C8_failed_login `{Json} `{Bcrypt} (cfg : secrets)
    (email password : string) (fresh : Z) (w : world) (c : login_failure) :
  login_fails cfg email password w c ->
  login_box cfg email password fresh w = (st_error (failure_message c), w).
Proof.
  unfold login_box. destruct c; simpl.
  - intros ->. reflexivity.
  - intros [u [rest [h [-> [-> ->]]]]]. reflexivity.
Qed.

Lemma C8_failed_login_witness :
  @login_box Toy.json Toy.bcrypt cfg_service "clerk@edi.et" "secret2" 7
    (hosted signed_out)
  = (st_error (failure_message wrong_password), hosted signed_out).
Proof.
  apply (@C8_failed_login Toy.json Toy.bcrypt).
  exists clerk_row, [], ("$2b$12$" +:+ Toy.digest "secret1").
  repeat split; vm_compute; reflexivity.
Defined.

Lemma stored_save_other `{Json} (path path' : string) (rows : list record)
    (r : record) (fs : gmap string string) :
  path <> path' ->
  stored path rows fs -> stored path rows (save_jsonl path' r fs).
Proof. intros Hne Hs. unfold save_jsonl. apply stored_other; assumption. Qed.

Lemma login_success `{Json} `{Bcrypt} (cfg : secrets)
    (email password : string) (fresh : Z) (w : world)
    (u : record) (rest : list record) (h : string) :
  find_user cfg email w = Some (u :: rest) ->
  u !! "password_hash" = Some (JStr h) ->
  check_pwd password h = Some true ->
  login_box cfg email password fresh w
  = (rerun,
     set_session
       {| user := Some {| user_email := email;
                          user_id := default (JStr (new_user_id fresh)) (u !! "id") |};
          role := default (JStr "collector") (u !! "role") |} w).
Proof. intros Hf Hh Hc. unfold login_box. rewrite Hf, Hh, Hc. reflexivity. Qed.

Lemma disk_users : @stored Toy.json users_path [clerk_row] disk.
Proof.
  unfold disk.
  apply stored_save_other; [discriminate|].
  apply stored_save_other; [discriminate|].
  apply (@stored_save Toy.json users_path [] clerk_row).
  apply stored_missing.
Qed.

Lemma disk_applicants : @stored Toy.json applicants_path [row_a; row_b] disk.
Proof.
  unfold disk.
  apply (@stored_save Toy.json applicants_path [row_a] row_b).
  apply (@stored_save Toy.json applicants_path [] row_a).
  apply stored_save_other; [discriminate|].
  apply stored_missing.
Qed.

(** C7 (the code at a failing input): the stored address and the typed
    one differ only in case and the password is right; the hosted lookup
    finds no user, while the local lookup of the same user signs in. *)
Example C7_hosted_lookup_is_case_sensitive :
  same_email "Clerk@EDI.et" "clerk@edi.et"
  /\ @login_box Toy.json Toy.bcrypt cfg_service "Clerk@EDI.et" "secret1" 7
       (hosted signed_out)
     = (st_error "User not found", hosted signed_out)
  /\ fst (@login_box Toy.json Toy.bcrypt cfg_service "clerk@edi.et" "secret1" 7
            (hosted signed_out)) = rerun
  /\ fst (@login_box Toy.json Toy.bcrypt cfg_local "Clerk@EDI.et" "secret1" 7
            (on_disk signed_out)) = rerun.
Proof.
  split; [vm_compute; reflexivity|].
  split; [vm_compute; reflexivity|].
  split; [vm_compute; reflexivity|].
  rewrite (@login_success Toy.json Toy.bcrypt cfg_local "Clerk@EDI.et" "secret1"
             7 (on_disk signed_out) clerk_row []
             ("$2b$12$" +:+ Toy.digest "secret1")).
  - reflexivity.
  - unfold find_user. change (supabase cfg_local) with false. cbv iota.
    change (files (on_disk signed_out)) with disk.
    rewrite (@load_stored Toy.json Toy_json_laws _ _ _ disk_users).
    vm_compute. reflexivity.
  - vm_compute. reflexivity.
  - vm_compute. reflexivity.
Qed.

(** ** Creating users *)

(** C9: a caller who is not an admin gets [Admins only] and nothing is
    stored.  For an admin, passwords that differ or are shorter than
    six characters store nothing either; whenever the state changes,
    the passwords match and have six characters or more, and the change
    is the one new user record: the lower-cased address, the role and
    [bcrypt.hashpw] of the password (plus, locally, a fresh identifier),
    and nothing else; a password bcrypt hashes does create the user.
    The password reaches the store through its hash only: two passwords
    with the same hash leave the same state, and the stored hash is not
    the password unless bcrypt returns the password itself. *)
Theorem C9_create_user `{Json} `{Bcrypt} (cfg : secrets)
    (email role_sel pwd1 pwd2 salt : string) (fresh : Z) (w : world) :
  let caller :=
    match user (session w) with Some u => user_email u | None => EmptyString end in
  let result := admin_create_user_box cfg email role_sel pwd1 pwd2 salt fresh w in
  let rec : record :=
    <["email" := JStr (lower email)]>
      (<["password_hash" := JStr (hashpw pwd1 salt)]>
         (<["role" := JStr role_sel]> ∅)) in
  let created :=
    if supabase_admin cfg
    then set_remote_users (remote_users w ++ [rec]) w
    else set_files
           (save_jsonl users_path
              (<["id" := JStr (new_user_id fresh)]> rec) (files w)) w in
  (is_admin cfg (session w) caller = false ->
     result = (st_error "Admins only", w))
  /\ (is_admin cfg (session w) caller = true ->
      (pwd1 <> pwd2 \/ (String.length pwd1 < 6)%nat ->
         result = (st_error "Passwords must match and be at least 6 chars", w))
      /\ (snd result = w
          \/ (pwd1 = pwd2 /\ (6 <= String.length pwd1)%nat
              /\ snd result = created))
      /\ (pwd1 = pwd2 -> (6 <= String.length pwd1)%nat ->
          hashable pwd1 = true ->
          result = (st_success "User created", created)))
  /\ (forall other,
        hashpw other salt = hashpw pwd1 salt ->
        (6 <= String.length other)%nat -> (6 <= String.length pwd1)%nat ->
        snd (admin_create_user_box cfg email role_sel other other salt fresh w)
        = snd (admin_create_user_box cfg email role_sel pwd1 pwd1 salt fresh w))
  /\ (hashpw pwd1 salt <> pwd1 ->
      rec !! "password_hash" <> Some (JStr pwd1)).
Proof.
  intros caller result rec created.
  assert (Hgood : forall p, (6 <= String.length p)%nat ->
            negb (String.eqb p p) || (Z.of_nat (String.length p) <? 6) = false).
  { intros p Hp. rewrite String.eqb_refl. simpl.
    apply Z.ltb_ge. lia. }
  split; [|split; [|split]].
  - subst result. unfold admin_create_user_box. fold caller.
    intros ->. reflexivity.
  - intros Ha. subst result. unfold admin_create_user_box. fold caller.
    rewrite Ha. simpl negb. cbv iota. split; [|split].
    + intros Hbad.
      assert (Hc : negb (String.eqb pwd1 pwd2)
                   || (Z.of_nat (String.length pwd1) <? 6) = true).
      { destruct Hbad as [Hne|Hlen].
        - apply String.eqb_neq in Hne. rewrite Hne. reflexivity.
        - apply orb_true_iff. right. apply Z.ltb_lt. lia. }
      rewrite Hc. reflexivity.
    + destruct (negb (String.eqb pwd1 pwd2)
                || (Z.of_nat (String.length pwd1) <? 6)) eqn:Hc;
        [left; reflexivity|].
      right. apply orb_false_iff in Hc. destruct Hc as [He Hl].
      apply negb_false_iff, String.eqb_eq in He. apply Z.ltb_ge in Hl.
      split; [exact He|]. split; [lia|].
      subst created rec. destruct (supabase_admin cfg); reflexivity.
    + intros Heq Hlen _. subst pwd2. rewrite (Hgood pwd1 Hlen).
      subst created rec. destruct (supabase_admin cfg); reflexivity.
  - intros other Hh Hlo Hl1. unfold admin_create_user_box. fold caller.
    destruct (negb (is_admin cfg (session w) caller)); [reflexivity|].
    rewrite (Hgood other Hlo), (Hgood pwd1 Hl1).
    unfold user_record, hash_pwd. rewrite Hh. reflexivity.
  - intros Hne Hl. subst rec.
    rewrite lookup_insert_ne in Hl by discriminate.
    rewrite lookup_insert_eq in Hl. inversion Hl. contradiction.
Qed.

(** A collector calls the box: nothing is stored. *)
Lemma C9_create_user_witness :
  @admin_create_user_box Toy.json Toy.bcrypt cfg_service
    "new@edi.et" "admin" "secret1" "secret1" "$2b$12$" 7 (hosted clerk_session)
  = (st_error "Admins only", hosted clerk_session).
Proof.
  apply (proj1 (@C9_create_user Toy.json Toy.bcrypt cfg_service
                  "new@edi.et" "admin" "secret1" "secret1" "$2b$12$" 7
                  (hosted clerk_session))).
  vm_compute. reflexivity.
Defined.

(** ** The admin update of [credit_history] *)

Lemma supabase_admin_off (cfg : secrets) :
  supabase cfg = false -> supabase_admin cfg = false.
Proof. unfold supabase_admin. intros ->. reflexivity. Qed.

(** On the local backend the update is read back: the row at [idx] has
    the new [credit_history], its other fields and all other rows are as
    before. *)
Lemma admin_update_local `{JsonLaws} (cfg : secrets) (idx : nat) (x : string)
    (w : world) (u : session_user) (rows : list record) (row : record) :
  supabase cfg = false ->
  user (session w) = Some u ->
  is_admin cfg (session w) (user_email u) = true ->
  stored applicants_path rows (files w) ->
  rows !! idx = Some row ->
  exists w',
    admin_page_update cfg idx x w = (st_success "Updated", w')
    /\ admin_rows cfg w'
       = Some (<[idx := <["credit_history" := JStr x]> row]> rows).
Proof.
  intros Hs Hu Ha Hst Hrow.
  pose proof (supabase_admin_off cfg Hs) as Hsa.
  unfold admin_page_update, admin_rows. rewrite Hu, Ha, Hsa, Hs. simpl negb.
  cbv iota. rewrite (load_stored _ _ _ Hst), Hrow.
  eexists. split; [reflexivity|].
  simpl files. apply load_stored. apply stored_rewrite.
Qed.


(** What reading back means for the rows: one field of one row. *)
Lemma updated_rows_frame (rows : list record) (idx : nat) (row : record)
    (x : string) :
  rows !! idx = Some row ->
  let rows' := <[idx := <["credit_history" := JStr x]> row]> rows in
  (exists row', rows' !! idx = Some row'
                /\ row' !! "credit_history" = Some (JStr x)
                /\ forall k, k <> "credit_history" -> row' !! k = row !! k)
  /\ (forall j, j <> idx -> rows' !! j = rows !! j).
Proof.
  intros Hrow rows'. subst rows'. split.
  - exists (<["credit_history" := JStr x]> row). split; [|split].
    + apply list_lookup_insert_eq. eapply lookup_lt_Some. exact Hrow.
    + apply lookup_insert_eq.
    + intros k Hk. apply lookup_insert_ne. congruence.
  - intros j Hj. apply list_lookup_insert_ne. congruence.
Qed.

(** C5 (the code at a failing input): with the hosted tables but no
    service-role key, the update button takes the local-file branch: it
    reports success, and the rows the dashboard reads, from the hosted
    table, are as before, the old [credit_history] included. *)
Example C5_update_lost_without_service_key :
  supabase cfg_anon = true
  /\ supabase_admin cfg_anon = false
  /\ @admin_rows Toy.json cfg_anon hosted_anon_world = Some [row_a; row_b]
  /\ fst (@admin_page_update Toy.json cfg_anon 0 "good" hosted_anon_world)
     = st_success "Updated"
  /\ @admin_rows Toy.json cfg_anon
       (snd (@admin_page_update Toy.json cfg_anon 0 "good" hosted_anon_world))
     = Some [row_a; row_b]
  /\ row_a !! "credit_history" = Some (JStr "none").
Proof. repeat split; reflexivity. Qed.

(** ** More on the schema validator *)

Lemma fails_violation (kw : kwargs) (f : field) (msg : string) :
  validate_field f (kw f) = inl msg -> violation kw f = true.
Proof.
  unfold validate_field, violation, text.
  destruct (kw f) as [v|]; simpl.
  - intros V.
    destruct (enumeration f) as [allowed|] eqn:En.
    + destruct (as_text (annotation f) v) as [s|] eqn:Tx.
      * assert (Hex : exists m, field_validator f v = inl m) by (eexists; exact V).
        apply (field_validator_enumerated f v allowed s En Tx) in Hex.
        rewrite Hex. reflexivity.
      * destruct f; simpl in *; discriminate.
    + rewrite (field_validator_plain f v En) in V. discriminate.
  - unfold required. destruct (default_value f); [discriminate | reflexivity].
Qed.

Lemma names_field_errors (kw : kwargs) (f : field) :
  names (field_errors kw f) = if violation kw f then [f] else [].
Proof.
  unfold field_errors.
  destruct (validate_field f (kw f)) as [msg|v] eqn:V.
  - rewrite (fails_violation kw f msg V). reflexivity.
  - destruct (violation kw f) eqn:Hv; [|reflexivity].
    destruct (violation_fails kw f Hv) as [m Hm]. congruence.
Qed.

Lemma names_errors_filter (kw : kwargs) (l : list field) :
  names (flat_map (field_errors kw) l) = List.filter (violation kw) l.
Proof.
  induction l as [|f l IH]; simpl; [reflexivity|].
  unfold names in *. rewrite map_app, IH.
  fold (names (field_errors kw f)). rewrite names_field_errors.
  destruct (violation kw f); reflexivity.
Qed.

(** The schema accepts exactly the candidates without a violated
    field: nothing else (an empty text, a negative number, a licence
    without its date) is a ground for rejection. *)
Theorem accepted_iff_no_violation (kw : kwargs) :
  accepted (Applicant kw) = true <-> forall f, violation kw f = false.
Proof.
  unfold Applicant, accepted. split.
  - destruct (errors kw) as [|e es] eqn:E; [|discriminate].
    intros _ f. destruct (violation kw f) eqn:Hv; [|reflexivity].
    destruct (violation_fails kw f Hv) as [m Hm].
    apply in_errors in Hm. rewrite E in Hm. destruct Hm.
  - intros Hnone.
    destruct (errors kw) as [|[f m] es] eqn:E; [reflexivity|].
    assert (Hin : In (f, m) (errors kw)) by (rewrite E; left; reflexivity).
    apply in_errors in Hin. apply fails_violation in Hin.
    rewrite Hnone in Hin. discriminate.
Qed.

(** A rejection names the violated fields, each once, in the order of
    the class body, and no other field. *)
Theorem rejection_names_exactly (kw : kwargs) (errs : ValidationError) :
  Applicant kw = inl errs -> names errs = List.filter (violation kw) fields.
Proof.
  intros Hrej. apply Applicant_inl in Hrej. destruct Hrej as [-> _].
  apply names_errors_filter.
Qed.

Lemma rejection_names_exactly_witness :
  names [(region, "Field required");
         (sex, "String should match pattern '^(m|f)$'")]
  = List.filter
      (violation (without_region (call_kwargs (arguments (with_sex "x" sample_form)))))
      fields.
Proof.
  apply (rejection_names_exactly
           (without_region (call_kwargs (arguments (with_sex "x" sample_form))))).
  vm_compute. reflexivity.
Defined.

(** ** The record a submission stores *)

Lemma columns_lookup (a : instance) (f : field) :
  columns a !! name f = Some (to_scalar (annotation f) (a f)).
Proof. destruct f; vm_compute; reflexivity. Qed.

Lemma foldr_insert_keys (a : instance) (l : list field) (k : string) :
  is_Some (foldr (fun f m => <[name f := to_scalar (annotation f) (a f)]> m)
             (∅ : record) l !! k) ->
  exists f, k = name f.
Proof.
  induction l as [|f l IH]; simpl.
  - rewrite lookup_empty. intros [x Hx]. discriminate.
  - destruct (decide (name f = k)) as [<-|Hne].
    + intros _. exists f. reflexivity.
    + rewrite lookup_insert_ne by exact Hne. exact IH.
Qed.

Lemma name_not_id (f : field) : name f <> "id" /\ name f <> "collected_by".
Proof. destruct f; split; discriminate. Qed.

Lemma applicant_record_lookup (a : instance) (uid collected_by : scalar)
    (f : field) :
  applicant_record a uid collected_by !! name f
  = Some (to_scalar (annotation f) (a f)).
Proof.
  unfold applicant_record. destruct (name_not_id f) as [Hid Hcb].
  rewrite !lookup_insert_ne by congruence. apply columns_lookup.
Qed.

(** The stored record has the 44 columns of the schema, each holding
    the stored form of the value that was validated (a date as its ISO
    text, [None] as null), plus [id] and [collected_by], and no other
    key. *)
Theorem applicant_record_columns (a : instance) (uid collected_by : scalar) :
  let rec := applicant_record a uid collected_by in
  rec !! "id" = Some uid
  /\ rec !! "collected_by" = Some collected_by
  /\ (forall f, rec !! name f = Some (to_scalar (annotation f) (a f)))
  /\ (forall k, is_Some (rec !! k) ->
        k = "id" \/ k = "collected_by" \/ exists f, k = name f).
Proof.
  intros rec. subst rec. unfold applicant_record.
  split; [|split; [|split]].
  - apply lookup_insert_eq.
  - rewrite lookup_insert_ne by discriminate. apply lookup_insert_eq.
  - intros f. apply applicant_record_lookup.
  - intros k.
    destruct (decide (k = "id")) as [->|Hid]; [tauto|].
    destruct (decide (k = "collected_by")) as [->|Hcb]; [tauto|].
    rewrite !lookup_insert_ne by congruence.
    intros Hk. right. right. exact (foldr_insert_keys a fields k Hk).
Qed.

(** A licence date entered on a form that says there is no licence is
    not stored: the column is null. *)
Theorem licence_date_needs_licence (wd : form) (uid collected_by : scalar) :
  wd has_business_license = false ->
  applicant_record (arguments wd) uid collected_by !! "date_of_business_license"
  = Some JNull.
Proof.
  intros Hno.
  pose proof (applicant_record_lookup (arguments wd) uid collected_by
                date_of_business_license) as Hc.
  change (name date_of_business_license) with "date_of_business_license" in Hc.
  rewrite Hc. simpl. rewrite Hno. reflexivity.
Qed.

Lemma licence_date_needs_licence_witness :
  applicant_record (arguments (without_licence sample_form))
    (JStr "01HF7YAT000000000000000C1S") (JStr "u-1")
  !! "date_of_business_license" = Some JNull.
Proof. apply licence_date_needs_licence. reflexivity. Defined.

(** An optional text input is stored as null when left blank and as the
    text typed otherwise. *)
Theorem optional_text_stored (wd : form) (uid collected_by : scalar)
    (f : field) (s : string) :
  optional_text f = true ->
  as_text (widget f) (wd f) = Some s ->
  applicant_record (arguments wd) uid collected_by !! name f
  = Some (if truthy s then JStr s else JNull).
Proof.
  intros Hopt Hs.
  rewrite (applicant_record_lookup (arguments wd) uid collected_by f).
  destruct f; try discriminate; simpl in Hs; inversion Hs; subst;
    unfold arguments, or_None; simpl;
    match goal with |- context [truthy ?x] => destruct (truthy x) end;
    reflexivity.
Qed.

Lemma optional_text_stored_witness :
  applicant_record (arguments (with_trade EmptyString sample_form))
    (JStr "01HF7YAT000000000000000C1S") (JStr "u-1") !! name trade
  = Some (if truthy EmptyString then JStr EmptyString else JNull).
Proof.
  apply (optional_text_stored (with_trade EmptyString sample_form)
           (JStr "01HF7YAT000000000000000C1S") (JStr "u-1") trade EmptyString);
    reflexivity.
Defined.

(** ** Submissions and the store *)

(** On the local backend an accepted submission by a signed-in user is
    read back: the file then holds the earlier rows followed by the new
    record, whose [id] is the fresh ULID and whose [collected_by] is the
    user's identifier. *)
Theorem collector_page_local_appends `{JsonLaws} (cfg : secrets) (wd : form)
    (env : submit_env) (w : world) (u : session_user) (rows : list record) :
  supabase cfg = false ->
  stored applicants_path rows (files w) ->
  user (session w) = Some u ->
  accepted (Applicant (call_kwargs (arguments wd))) = true ->
  exists w',
    collector_page cfg wd env w = (st_success "Saved locally (demo mode)", w')
    /\ load_jsonl applicants_path (files w')
       = Some (rows ++ [applicant_record (arguments wd)
                          (JStr (new_applicant_id env)) (user_id u)]).
Proof.
  intros Hs Hst Hu Hacc. unfold collector_page.
  destruct (Applicant (call_kwargs (arguments wd))) as [errs|a]; [discriminate|].
  rewrite Hu, Hs. eexists. split; [reflexivity|].
  simpl files. apply load_stored. apply stored_save. exact Hst.
Qed.

Lemma collector_page_local_appends_witness :
  exists w',
    @collector_page Toy.json cfg_local sample_form sample_env (on_disk clerk_session)
    = (st_success "Saved locally (demo mode)", w')
    /\ @load_jsonl Toy.json applicants_path (files w')
       = Some ([row_a; row_b]
               ++ [applicant_record (arguments sample_form)
                     (JStr (new_applicant_id sample_env))
                     (user_id {| user_email := "clerk@edi.et";
                                 user_id := JStr "7d9f2c1e-58a4-4b1c-9f0e-3a6b5c4d2e1f" |})]).
Proof.
  apply (@collector_page_local_appends Toy.json Toy_json_laws cfg_local
           sample_form sample_env (on_disk clerk_session)).
  - reflexivity.
  - exact disk_applicants.
  - reflexivity.
  - vm_compute. reflexivity.
Defined.

Lemma collector_page_keeps `{Json} (cfg : secrets) (wd : form)
    (env : submit_env) (w : world) :
  let r := collector_page cfg wd env w in
  session (snd r) = session w
  /\ remote_users (snd r) = remote_users w
  /\ files (snd r) !! users_path = files w !! users_path
  /\ ((forall msg, fst r <> st_success msg) -> snd r = w).
Proof.
  intros r. subst r. unfold collector_page.
  destruct (Applicant (call_kwargs (arguments wd))) as [errs|a];
    [simpl; tauto|].
  destruct (user (session w)) as [u|]; [|simpl; tauto].
  destruct (supabase cfg).
  - destruct (insert_returned_rows env); simpl; [|tauto].
    repeat split. intros Hno. exfalso. exact (Hno _ eq_refl).
  - simpl. repeat split.
    + unfold save_jsonl. apply lookup_insert_ne. discriminate.
    + intros Hno. exfalso. exact (Hno _ eq_refl).
Qed.

(** A submission never touches the session or the users, and it changes
    nothing at all unless it reports success. *)
Theorem collector_page_frame `{Json} (cfg : secrets) (wd : form)
    (env : submit_env) (w : world) :
  let r := collector_page cfg wd env w in
  session (snd r) = session w
  /\ remote_users (snd r) = remote_users w
  /\ files (snd r) !! users_path = files w !! users_path
  /\ ((forall msg, fst r <> st_success msg) -> snd r = w).
Proof. apply collector_page_keeps. Qed.

(** ** Sign-in and the store *)

Lemma login_box_keeps `{Json} `{Bcrypt} (cfg : secrets)
    (email password : string) (fresh : Z) (w : world) :
  let r := login_box cfg email password fresh w in
  files (snd r) = files w
  /\ remote_users (snd r) = remote_users w
  /\ remote_applicants (snd r) = remote_applicants w
  /\ (fst r <> rerun -> snd r = w).
Proof.
  intros r. subst r. unfold login_box.
  destruct (find_user cfg email w) as [[|u rest]|]; try (simpl; tauto).
  destruct (u !! "password_hash") as [[| | | |h]|]; try (simpl; tauto).
  destruct (check_pwd password h) as [[|]|]; simpl; tauto.
Qed.

(** Signing in never writes to the files or the hosted tables, and it
    changes the session only when it succeeds. *)
Theorem login_box_frame `{Json} `{Bcrypt} (cfg : secrets)
    (email password : string) (fresh : Z) (w : world) :
  let r := login_box cfg email password fresh w in
  files (snd r) = files w
  /\ remote_users (snd r) = remote_users w
  /\ remote_applicants (snd r) = remote_applicants w
  /\ (fst r <> rerun -> snd r = w).
Proof. apply login_box_keeps. Qed.

(** After a sign-in as a user stored with the role [admin], every later
    admin check passes, whatever address it is asked about. *)
Theorem admin_role_after_login `{Json} `{Bcrypt} (cfg : secrets)
    (email password : string) (fresh : Z) (w : world)
    (u : record) (rest : list record) (h : string) (asked : string) :
  find_user cfg email w = Some (u :: rest) ->
  u !! "password_hash" = Some (JStr h) ->
  check_pwd password h = Some true ->
  u !! "role" = Some (JStr "admin") ->
  is_admin cfg (session (snd (login_box cfg email password fresh w))) asked
  = true.
Proof.
  intros Hf Hh Hc Hr.
  rewrite (login_success cfg email password fresh w u rest h Hf Hh Hc).
  simpl. rewrite Hr. simpl. unfold is_admin. simpl.
  destruct (truthy asked && str_in (lower asked) (APP_ADMIN_EMAILS cfg));
    reflexivity.
Qed.

Lemma admin_role_after_login_witness :
  is_admin cfg_service
    (session (snd (@login_box Toy.json Toy.bcrypt cfg_service
                     "boss@edi.et" "topsecret" 7 hosted_with_boss)))
    "clerk@edi.et"
  = true.
Proof.
  apply (@admin_role_after_login Toy.json Toy.bcrypt cfg_service
           "boss@edi.et" "topsecret" 7 hosted_with_boss boss_row []
           ("$2b$12$" +:+ Toy.digest "topsecret") "clerk@edi.et");
    vm_compute; reflexivity.
Defined.

(** ** Creating a user, then signing in *)

Lemma length_zero_padded (w : nat) (n : Z) :
  String.length (zero_padded w n) = w.
Proof.
  revert n. induction w as [|w IH]; intros n; simpl; [reflexivity|].
  rewrite length_append, IH. simpl. lia.
Qed.

Lemma substring_all (s : string) : substring 0 (String.length s) s = s.
Proof. induction s as [|c s IH]; simpl; [|rewrite IH]; reflexivity. Qed.

Lemma substring_after (a b : string) :
  substring (String.length a) (String.length b) (a +:+ b) = b.
Proof.
  induction a as [|c a IH]; [apply substring_all|].
  rewrite append_cons. simpl. exact IH.
Qed.

Lemma Toy_bcrypt_laws : @BcryptLaws Toy.bcrypt.
Proof.
  split. intros p salt. simpl.
  assert (Hd : String.length (Toy.digest p) = 8%nat)
    by apply length_zero_padded.
  rewrite length_append, Hd.
  replace (Nat.ltb (String.length salt + 8) 8) with false
    by (symmetry; apply Nat.ltb_ge; lia).
  replace (String.length salt + 8 - 8)%nat with (String.length salt) by lia.
  rewrite <- Hd at 1. rewrite substring_after, String.eqb_refl. reflexivity.
Qed.

Lemma rows_with_email_app (email : string) (l1 l2 : list record) :
  rows_with_email email (l1 ++ l2)
  = (a ← rows_with_email email l1;
     b ← rows_with_email email l2;
     Some (a ++ b)).
Proof.
  induction l1 as [|r l1 IH]; simpl.
  - destruct (rows_with_email email l2); reflexivity.
  - destruct (r !! "email") as [[| | | |e]|]; try reflexivity.
    rewrite IH.
    destruct (rows_with_email email l1) as [a|]; simpl; [|reflexivity].
    destruct (rows_with_email email l2) as [b|]; simpl; [|reflexivity].
    destruct (String.eqb (lower e) (lower email)); reflexivity.
Qed.

(** On the local backend a user an admin creates can then sign in with
    the same password and the address in any letter case, provided no
    earlier user has that address; the session gets the new identifier
    and the chosen role. *)
Theorem create_then_login_local `{JsonLaws} `{!Bcrypt} `{!BcryptLaws}
    (cfg : secrets) (email role_sel pwd salt typed : string)
    (fresh fresh' : Z) (w : world) (rows : list record) :
  supabase cfg = false ->
  is_admin cfg (session w)
    (match user (session w) with Some u => user_email u | None => EmptyString end)
  = true ->
  (6 <= String.length pwd)%nat ->
  stored users_path rows (files w) ->
  rows_with_email typed rows = Some [] ->
  same_email typed email ->
  let w1 := snd (admin_create_user_box cfg email role_sel pwd pwd salt fresh w) in
  login_box cfg typed pwd fresh' w1
  = (rerun,
     set_session
       {| user := Some {| user_email := typed;
                          user_id := JStr (new_user_id fresh) |};
          role := JStr role_sel |} w1).
Proof.
  intros Hs Ha Hlen Hst Hnone Hsame w1.
  pose proof (supabase_admin_off cfg Hs) as Hsa.
  assert (Hw1 : w1 = set_files
                  (save_jsonl users_path
                     (<["id" := JStr (new_user_id fresh)]>
                        (user_record email role_sel pwd salt)) (files w)) w).
  { subst w1. unfold admin_create_user_box. rewrite Ha, Hsa.
    rewrite String.eqb_refl. simpl negb. simpl orb.
    replace (Z.of_nat (String.length pwd) <? 6) with false
      by (symmetry; apply Z.ltb_ge; lia).
    reflexivity. }
  set (rec := <["id" := JStr (new_user_id fresh)]>
                (user_record email role_sel pwd salt)) in *.
  assert (Hfind : find_user cfg typed w1 = Some [rec]).
  { unfold find_user. rewrite Hs, Hw1. simpl files.
    rewrite (load_stored _ _ _ (stored_save _ _ rec _ Hst)). simpl.
    rewrite rows_with_email_app, Hnone. simpl.
    subst rec. unfold user_record.
    rewrite lookup_insert_ne by discriminate. rewrite lookup_insert_eq.
    unfold same_email in Hsame. rewrite lower_idem, <- Hsame, String.eqb_refl.
    reflexivity. }
  rewrite (login_success cfg typed pwd fresh' w1 rec [] (hash_pwd pwd salt) Hfind).
  - subst rec. unfold user_record.
    rewrite lookup_insert_eq.
    rewrite !lookup_insert_ne by discriminate. rewrite lookup_insert_eq.
    reflexivity.
  - subst rec. unfold user_record.
    rewrite !lookup_insert_ne by discriminate. apply lookup_insert_eq.
  - unfold check_pwd, hash_pwd. apply checkpw_hashpw.
Qed.

Lemma create_then_login_local_witness :
  @login_box Toy.json Toy.bcrypt cfg_local "New@EDI.et" "secret9" 8
    (snd (@admin_create_user_box Toy.json Toy.bcrypt cfg_local
            "new@edi.et" "collector" "secret9" "secret9" "$2b$12$" 7
            (on_disk boss_session)))
  = (rerun,
     set_session
       {| user := Some {| user_email := "New@EDI.et";
                          user_id := JStr (new_user_id 7) |};
          role := JStr "collector" |}
       (snd (@admin_create_user_box Toy.json Toy.bcrypt cfg_local
               "new@edi.et" "collector" "secret9" "secret9" "$2b$12$" 7
               (on_disk boss_session)))).
Proof.
  apply (@create_then_login_local Toy.json Toy_json_laws Toy.bcrypt
           Toy_bcrypt_laws cfg_local "new@edi.et" "collector" "secret9"
           "$2b$12$" "New@EDI.et" 7 8 (on_disk boss_session) [clerk_row]).
  - reflexivity.
  - vm_compute. reflexivity.
  - simpl. lia.
  - exact disk_users.
  - vm_compute. reflexivity.
  - vm_compute. reflexivity.
Defined.

(** With the service-role client the created user signs in with the
    stored, lower-cased address, provided no earlier row has it; the
    session gets that address and the chosen role. *)
Theorem create_then_login_hosted `{Json} `{Bcrypt} `{!BcryptLaws}
    (cfg : secrets) (email role_sel pwd salt : string)
    (fresh fresh' : Z) (w : world) :
  supabase_admin cfg = true ->
  is_admin cfg (session w)
    (match user (session w) with Some u => user_email u | None => EmptyString end)
  = true ->
  (6 <= String.length pwd)%nat ->
  select_eq "email" (JStr (lower email)) (remote_users w) = [] ->
  let w1 := snd (admin_create_user_box cfg email role_sel pwd pwd salt fresh w) in
  exists uid,
    login_box cfg (lower email) pwd fresh' w1
    = (rerun,
       set_session
         {| user := Some {| user_email := lower email; user_id := uid |};
            role := JStr role_sel |} w1).
Proof.
  intros Hsa Ha Hlen Hnone w1. exists (JStr (new_user_id fresh')).
  assert (Hs : supabase cfg = true).
  { unfold supabase_admin in Hsa. apply andb_prop in Hsa. tauto. }
  assert (Hw1 : w1 = set_remote_users
                  (remote_users w ++ [user_record email role_sel pwd salt]) w).
  { subst w1. unfold admin_create_user_box. rewrite Ha, Hsa.
    rewrite String.eqb_refl. simpl negb. simpl orb.
    replace (Z.of_nat (String.length pwd) <? 6) with false
      by (symmetry; apply Z.ltb_ge; lia).
    reflexivity. }
  set (rec := user_record email role_sel pwd salt) in *.
  assert (Hfind : find_user cfg (lower email) w1 = Some [rec]).
  { unfold find_user. rewrite Hs, Hw1. simpl remote_users.
    unfold select_eq in *. rewrite List.filter_app, Hnone. simpl.
    subst rec. unfold eq_filter, user_record. rewrite lookup_insert_eq.
    rewrite String.eqb_refl. reflexivity. }
  rewrite (login_success cfg (lower email) pwd fresh' w1 rec []
             (hash_pwd pwd salt) Hfind).
  - subst rec. unfold user_record.
    rewrite !lookup_insert_ne by discriminate. rewrite lookup_empty.
    rewrite lookup_insert_eq. reflexivity.
  - subst rec. unfold user_record.
    rewrite !lookup_insert_ne by discriminate. apply lookup_insert_eq.
  - unfold check_pwd, hash_pwd. apply checkpw_hashpw.
Qed.

Lemma create_then_login_hosted_witness :
  exists uid,
  @login_box Toy.json Toy.bcrypt cfg_service (lower "New@EDI.et") "secret9" 8
    (snd (@admin_create_user_box Toy.json Toy.bcrypt cfg_service
            "New@EDI.et" "collector" "secret9" "secret9" "$2b$12$" 7
            (hosted boss_session)))
  = (rerun,
     set_session
       {| user := Some {| user_email := lower "New@EDI.et"; user_id := uid |};
          role := JStr "collector" |}
       (snd (@admin_create_user_box Toy.json Toy.bcrypt cfg_service
               "New@EDI.et" "collector" "secret9" "secret9" "$2b$12$" 7
               (hosted boss_session)))).
Proof.
  apply (@create_then_login_hosted Toy.json Toy.bcrypt Toy_bcrypt_laws
           cfg_service "New@EDI.et" "collector" "secret9" "$2b$12$" 7 8
           (hosted boss_session)).
  - reflexivity.
  - vm_compute. reflexivity.
  - simpl. lia.
  - vm_compute. reflexivity.
Defined.

(** ** More on the admin update *)

Lemma admin_page_update_local `{Json} (cfg : secrets) (idx : nat) (x : string)
    (w : world) (u : session_user) (rows : list record) (row : record) :
  supabase cfg = false ->
  user (session w) = Some u ->
  is_admin cfg (session w) (user_email u) = true ->
  load_jsonl applicants_path (files w) = Some rows ->
  rows !! idx = Some row ->
  admin_page_update cfg idx x w
  = (st_success "Updated",
     set_files
       (<[applicants_path :=
            jsonl_text (<[idx := <["credit_history" := JStr x]> row]> rows)]>
          (files w)) w).
Proof.
  intros Hs Hu Ha Hload Hrow.
  pose proof (supabase_admin_off cfg Hs) as Hsa.
  unfold admin_page_update, admin_rows. rewrite Hu, Ha, Hsa, Hs. simpl negb.
  cbv iota. rewrite Hload, Hrow. reflexivity.
Qed.

(** On the local backend, after the admin sets the [credit_history] of
    row [idx] to [x], the rows read back are as many as before; row
    [idx] has the new value and its other fields as before; every other
    row, the users file and the session are unchanged. *)
Theorem admin_update_local_read_back `{JsonLaws} (cfg : secrets) (idx : nat)
    (x : string) (w : world) (u : session_user) (rows : list record)
    (row : record) :
  supabase cfg = false ->
  user (session w) = Some u ->
  is_admin cfg (session w) (user_email u) = true ->
  stored applicants_path rows (files w) ->
  rows !! idx = Some row ->
  exists w' rows',
    admin_page_update cfg idx x w = (st_success "Updated", w')
    /\ admin_rows cfg w' = Some rows'
    /\ length rows' = length rows
    /\ (exists row', rows' !! idx = Some row'
                     /\ row' !! "credit_history" = Some (JStr x)
                     /\ forall k, k <> "credit_history" -> row' !! k = row !! k)
    /\ (forall j, j <> idx -> rows' !! j = rows !! j)
    /\ session w' = session w
    /\ files w' !! users_path = files w !! users_path.
Proof.
  intros Hs Hu Ha Hst Hrow.
  pose proof (supabase_admin_off cfg Hs) as Hsa.
  eexists. exists (<[idx := <["credit_history" := JStr x]> row]> rows).
  split; [apply (admin_page_update_local cfg idx x w u rows row Hs Hu Ha
                   (load_stored _ _ _ Hst) Hrow)|].
  destruct (updated_rows_frame rows idx row x Hrow) as [Hone Hothers].
  split; [|split; [|split; [|split; [|split]]]].
  - unfold admin_rows. rewrite Hsa, Hs. simpl files.
    apply load_stored. apply stored_rewrite.
  - apply length_insert.
  - exact Hone.
  - exact Hothers.
  - reflexivity.
  - simpl. apply lookup_insert_ne. discriminate.
Qed.

Lemma admin_update_local_read_back_witness :
  exists w' rows',
    @admin_page_update Toy.json cfg_local 0 "good" (on_disk boss_session)
    = (st_success "Updated", w')
    /\ @admin_rows Toy.json cfg_local w' = Some rows'
    /\ length rows' = length [row_a; row_b]
    /\ (exists row', rows' !! 0%nat = Some row'
                     /\ row' !! "credit_history" = Some (JStr "good")
                     /\ forall k, k <> "credit_history" -> row' !! k = row_a !! k)
    /\ (forall j, j <> 0%nat -> rows' !! j = [row_a; row_b] !! j)
    /\ session w' = session (on_disk boss_session)
    /\ files w' !! users_path = files (on_disk boss_session) !! users_path.
Proof.
  apply (@admin_update_local_read_back Toy.json Toy_json_laws cfg_local 0
           "good" (on_disk boss_session)
           {| user_email := "boss@edi.et"; user_id := JStr "u-1" |}
           [row_a; row_b] row_a).
  - reflexivity.
  - reflexivity.
  - vm_compute. reflexivity.
  - exact disk_applicants.
  - reflexivity.
Defined.

(** Two updates of the same row on the local backend: the second value
    is the one read back, as if the first had not happened. *)
Theorem admin_update_last_write_wins `{JsonLaws} (cfg : secrets) (idx : nat)
    (x y : string) (w : world) (u : session_user) (rows : list record)
    (row : record) :
  supabase cfg = false ->
  user (session w) = Some u ->
  is_admin cfg (session w) (user_email u) = true ->
  stored applicants_path rows (files w) ->
  rows !! idx = Some row ->
  admin_rows cfg
    (snd (admin_page_update cfg idx y
            (snd (admin_page_update cfg idx x w))))
  = Some (<[idx := <["credit_history" := JStr y]> row]> rows).
Proof.
  intros Hs Hu Ha Hst Hrow.
  pose proof (supabase_admin_off cfg Hs) as Hsa.
  rewrite (admin_page_update_local cfg idx x w u rows row Hs Hu Ha
             (load_stored _ _ _ Hst) Hrow).
  simpl snd.
  set (rows1 := <[idx := <["credit_history" := JStr x]> row]> rows).
  set (w1 := set_files (<[applicants_path := jsonl_text rows1]> (files w)) w).
  assert (Hst1 : stored applicants_path rows1 (files w1))
    by (apply stored_rewrite).
  assert (Hrow1 : rows1 !! idx = Some (<["credit_history" := JStr x]> row)).
  { subst rows1. apply list_lookup_insert_eq. eapply lookup_lt_Some. exact Hrow. }
  rewrite (admin_page_update_local cfg idx y w1 u rows1 _ Hs Hu Ha
             (load_stored _ _ _ Hst1) Hrow1).
  simpl snd. unfold admin_rows. rewrite Hsa, Hs. simpl files.
  rewrite (load_stored _ _ _ (stored_rewrite applicants_path _ _)).
  subst rows1. rewrite list_insert_insert_eq, insert_insert_eq. reflexivity.
Qed.

Lemma admin_update_last_write_wins_witness :
  @admin_rows Toy.json cfg_local
    (snd (@admin_page_update Toy.json cfg_local 1 "settled"
            (snd (@admin_page_update Toy.json cfg_local 1 "late"
                    (on_disk boss_session)))))
  = Some (<[1%nat := <["credit_history" := JStr "settled"]> row_b]> [row_a; row_b]).
Proof.
  apply (@admin_update_last_write_wins Toy.json Toy_json_laws cfg_local 1
           "late" "settled" (on_disk boss_session)
           {| user_email := "boss@edi.et"; user_id := JStr "u-1" |}
           [row_a; row_b] row_b).
  - reflexivity.
  - reflexivity.
  - vm_compute. reflexivity.
  - exact disk_applicants.
  - reflexivity.
Defined.

Lemma admin_page_update_keeps `{Json} (cfg : secrets) (idx : nat)
    (x : string) (w : world) :
  let r := admin_page_update cfg idx x w in
  (forall msg, fst r = st_success msg ->
     exists u, user (session w) = Some u
               /\ is_admin cfg (session w) (user_email u) = true)
  /\ ((forall msg, fst r <> st_success msg) -> snd r = w)
  /\ session (snd r) = session w
  /\ remote_users (snd r) = remote_users w
  /\ files (snd r) !! users_path = files w !! users_path.
Proof.
  intros r. subst r. unfold admin_page_update.
  destruct (user (session w)) as [u|];
    [|simpl; repeat split; try discriminate; tauto].
  destruct (is_admin cfg (session w) (user_email u)) eqn:Ha; simpl negb; cbv iota;
    [|simpl; repeat split; try discriminate; tauto].
  destruct (admin_rows cfg w) as [rows|];
    [|simpl; repeat split; try discriminate; tauto].
  destruct (rows !! idx) as [row|];
    [|simpl; repeat split; try discriminate; tauto].
  destruct (supabase_admin cfg).
  - destruct (row !! "id") as [rid|];
      [|simpl; repeat split; try discriminate; tauto].
    simpl. split; [|split; [|tauto]].
    + intros msg _. exists u. tauto.
    + intros Hno. exfalso. exact (Hno _ eq_refl).
  - simpl. split; [|split; [|split; [|split]]]; try reflexivity.
    + intros msg _. exists u. tauto.
    + intros Hno. exfalso. exact (Hno _ eq_refl).
    + apply lookup_insert_ne. discriminate.
Qed.

(** The update reports success only to an admin; a run that does not
    report success changes nothing, and no run touches the session or
    the users. *)
Theorem admin_update_requires_admin `{Json} (cfg : secrets) (idx : nat)
    (x : string) (w : world) :
  let r := admin_page_update cfg idx x w in
  (forall msg, fst r = st_success msg ->
     exists u, user (session w) = Some u
               /\ is_admin cfg (session w) (user_email u) = true)
  /\ ((forall msg, fst r <> st_success msg) -> snd r = w)
  /\ session (snd r) = session w
  /\ remote_users (snd r) = remote_users w
  /\ files (snd r) !! users_path = files w !! users_path.
Proof. apply admin_page_update_keeps. Qed.


(** ** Start-up helpers *)

(** The role read from the URL is never the text [admin]: a role
    parameter contributes its first character only, so the route always
    shows the collector page. *)
Theorem role_from_query_never_admin (query_params : gmap string string)
    (role : string) :
  get_role_from_query query_params = Some role ->
  role <> "admin" /\ route role = collector_page_shown.
Proof.
  intros Hrole.
  assert (Hne : role <> "admin").
  { unfold get_role_from_query in Hrole.
    destruct (query_params !! "role") as [[|c v]|];
      inversion Hrole; subst; discriminate. }
  split; [exact Hne|]. unfold route.
  destruct (String.eqb_spec role "admin"); [contradiction | reflexivity].
Qed.

Lemma role_from_query_never_admin_witness :
  "a" <> "admin" /\ route "a" = collector_page_shown.
Proof.
  apply (role_from_query_never_admin {["role" := "admin"]} "a").
  reflexivity.
Defined.

Lemma load_create_if_missing `{Json} (path path' : string)
    (fs : gmap string string) :
  load_jsonl path (create_if_missing path' fs) = load_jsonl path fs.
Proof.
  unfold create_if_missing, load_jsonl.
  destruct (fs !! path') as [c|] eqn:E; [reflexivity|].
  destruct (decide (path' = path)) as [->|Hne].
  - rewrite lookup_insert_eq, E. reflexivity.
  - rewrite lookup_insert_ne by exact Hne. reflexivity.
Qed.

Lemma create_if_missing_keeps (path path' : string) (fs : gmap string string)
    (c : string) :
  fs !! path = Some c -> create_if_missing path' fs !! path = Some c.
Proof.
  unfold create_if_missing. intros Hc.
  destruct (fs !! path') as [c'|] eqn:E; [exact Hc|].
  rewrite lookup_insert_ne by congruence. exact Hc.
Qed.

Lemma create_if_missing_exists (path : string) (fs : gmap string string) :
  is_Some (create_if_missing path fs !! path).
Proof.
  unfold create_if_missing. destruct (fs !! path) as [c|] eqn:E.
  - rewrite E. eauto.
  - rewrite lookup_insert_eq. eauto.
Qed.

Lemma ensure_tables_exist_keeps `{Json} (cfg : secrets)
    (fs : gmap string string) (path : string) :
  load_jsonl path (ensure_tables_exist cfg fs) = load_jsonl path fs
  /\ (forall c, fs !! path = Some c ->
                ensure_tables_exist cfg fs !! path = Some c)
  /\ (supabase cfg = false ->
      is_Some (ensure_tables_exist cfg fs !! users_path)
      /\ is_Some (ensure_tables_exist cfg fs !! applicants_path)).
Proof.
  unfold ensure_tables_exist. destruct (supabase cfg); simpl.
  - repeat split; try tauto; discriminate.
  - split; [|split].
    + rewrite !load_create_if_missing. reflexivity.
    + intros c Hc. apply create_if_missing_keeps, create_if_missing_keeps.
      exact Hc.
    + intros _. split.
      * destruct (create_if_missing_exists users_path fs) as [c Hc].
        exists c. apply create_if_missing_keeps. exact Hc.
      * apply create_if_missing_exists.
Qed.

(** Creating the missing files keeps every existing file as it is and
    does not change what [load_jsonl] returns for any path; on the
    local backend both files exist afterwards. *)
Theorem ensure_tables_exist_keeps_rows `{Json} (cfg : secrets)
    (fs : gmap string string) (path : string) :
  load_jsonl path (ensure_tables_exist cfg fs) = load_jsonl path fs
  /\ (forall c, fs !! path = Some c ->
                ensure_tables_exist cfg fs !! path = Some c)
  /\ (supabase cfg = false ->
      is_Some (ensure_tables_exist cfg fs !! users_path)
      /\ is_Some (ensure_tables_exist cfg fs !! applicants_path)).
Proof. apply ensure_tables_exist_keeps. Qed.

(** ** Reading files that were not written by the program alone *)

Section Reading.
Context `{JsonLaws}.

Lemma parse_after_rows (rows : list record) (rest : string) :
  parse_lines (readlines EmptyString (jsonl_text rows +:+ rest))
  = (tl ← parse_lines (readlines EmptyString rest); Some (rows ++ tl)).
Proof.
  induction rows as [|r rows IH]; simpl jsonl_text.
  - rewrite append_nil_l.
    destruct (parse_lines (readlines EmptyString rest)); reflexivity.
  - rewrite !append_assoc.
    rewrite (readlines_line _ _ _ (dumps_one_line r)).
    rewrite append_nil_l, parse_line, IH.
    destruct (parse_lines (readlines EmptyString rest)); reflexivity.
Qed.

Lemma blank_line_skipped (blank : string) (rest : list string) :
  all_space blank = true ->
  parse_lines ((blank +:+ NL) :: rest) = parse_lines rest.
Proof.
  intros Hb. simpl. rewrite truthy_strip, all_space_app, Hb. reflexivity.
Qed.

Lemma bad_line_raises (bad : string) (rest : list string) :
  all_space bad = false -> loads (bad +:+ NL) = None ->
  parse_lines ((bad +:+ NL) :: rest) = None.
Proof.
  intros Hb Hl. simpl. rewrite truthy_strip, all_space_app, Hb, Hl.
  reflexivity.
Qed.
End Reading.

(** A blank line between records (spaces or tabs only) is skipped:
    the file reads as the records before it followed by the records
    after it. *)
Theorem load_jsonl_skips_blank_line `{JsonLaws} (path : string)
    (before after : list record) (blank : string) (fs : gmap string string) :
  one_line blank = true ->
  all_space blank = true ->
  fs !! path = Some (jsonl_text before +:+ blank +:+ NL +:+ jsonl_text after) ->
  load_jsonl path fs = Some (before ++ after).
Proof.
  intros Hl Hb Hfs. unfold load_jsonl. rewrite Hfs.
  rewrite universal_newlines_id.
  - rewrite parse_after_rows, (readlines_line _ _ _ Hl), append_nil_l.
    rewrite (blank_line_skipped _ _ Hb), parse_jsonl_text. reflexivity.
  - rewrite !no_CR_app, !no_CR_jsonl_text, (one_line_no_CR _ Hl). reflexivity.
Qed.

Lemma load_jsonl_skips_blank_line_witness :
  @load_jsonl Toy.json applicants_path
    {[ applicants_path :=
         @jsonl_text Toy.json [row_a] +:+ "  " +:+ NL
         +:+ @jsonl_text Toy.json [row_b] ]}
  = Some ([row_a] ++ [row_b]).
Proof.
  apply (@load_jsonl_skips_blank_line Toy.json Toy_json_laws applicants_path
           [row_a] [row_b] "  ").
  - reflexivity.
  - reflexivity.
  - apply lookup_singleton_eq.
Defined.

Lemma universal_newlines_app (a rest : string) :
  no_CR a = true ->
  universal_newlines (a +:+ rest) = a +:+ universal_newlines rest.
Proof.
  induction a as [|c a IH]; intros Ha; [reflexivity|].
  simpl in Ha. apply andb_prop in Ha. destruct Ha as [Hc Ha].
  rewrite !(append_cons c a). simpl universal_newlines.
  destruct (Ascii.eqb c CR); [discriminate|].
  rewrite (IH Ha). reflexivity.
Qed.

(** A line that is not blank and that json cannot parse makes
    [load_jsonl] raise, whatever the records before and the text after
    it. *)
Theorem load_jsonl_raises_on_bad_line `{JsonLaws} (path : string)
    (before : list record) (bad rest : string) (fs : gmap string string) :
  one_line bad = true ->
  all_space bad = false ->
  loads (bad +:+ NL) = None ->
  fs !! path = Some (jsonl_text before +:+ bad +:+ NL +:+ rest) ->
  load_jsonl path fs = None.
Proof.
  intros Hl Hb Hbad Hfs. unfold load_jsonl. rewrite Hfs.
  replace (jsonl_text before +:+ bad +:+ NL +:+ rest)
    with ((jsonl_text before +:+ bad +:+ NL) +:+ rest)
    by (rewrite !append_assoc; reflexivity).
  rewrite universal_newlines_app.
  - rewrite !append_assoc.
    rewrite parse_after_rows, (readlines_line _ _ _ Hl), append_nil_l.
    rewrite (bad_line_raises _ _ Hb Hbad). reflexivity.
  - rewrite !no_CR_app, no_CR_jsonl_text, (one_line_no_CR _ Hl). reflexivity.
Qed.

Lemma load_jsonl_raises_on_bad_line_witness :
  @load_jsonl Toy.json applicants_path
    {[ applicants_path :=
         @jsonl_text Toy.json [row_a] +:+ "not json" +:+ NL
         +:+ String CR "after a carriage return" ]}
  = None.
Proof.
  apply (@load_jsonl_raises_on_bad_line Toy.json Toy_json_laws applicants_path
           [row_a] "not json" (String CR "after a carriage return")).
  - reflexivity.
  - reflexivity.
  - reflexivity.
  - apply lookup_singleton_eq.
Defined.


Lemma universal_newlines_crlf (a rest : string) :
  no_CR a = true ->
  universal_newlines (a +:+ String CR (String LF EmptyString) +:+ rest)
  = a +:+ NL +:+ universal_newlines rest.
Proof.
  induction a as [|c a IH]; intros Ha.
  - reflexivity.
  - simpl in Ha. apply andb_prop in Ha. destruct Ha as [Hc Ha].
    rewrite !(append_cons c a). simpl universal_newlines.
    destruct (Ascii.eqb c CR); [discriminate|].
    rewrite (IH Ha). reflexivity.
Qed.

Lemma universal_newlines_jsonl_text_crlf `{JsonLaws} (rows : list record) :
  universal_newlines (jsonl_text_crlf rows) = jsonl_text rows.
Proof.
  induction rows as [|r rows IH]; simpl; [reflexivity|].
  rewrite (universal_newlines_crlf _ _ (one_line_no_CR _ (dumps_one_line r))).
  rewrite IH. reflexivity.
Qed.

(** A file with CR LF line ends reads as the same records as the file
    the program itself writes. *)
Theorem load_jsonl_crlf `{JsonLaws} (path : string) (rows : list record)
    (fs : gmap string string) :
  fs !! path = Some (jsonl_text_crlf rows) ->
  load_jsonl path fs = Some rows.
Proof.
  intros Hfs. unfold load_jsonl. rewrite Hfs.
  rewrite universal_newlines_jsonl_text_crlf. apply parse_jsonl_text.
Qed.

Lemma load_jsonl_crlf_witness :
  @load_jsonl Toy.json applicants_path
    {[ applicants_path := @jsonl_text_crlf Toy.json [row_a; row_b] ]}
  = Some [row_a; row_b].
Proof.
  apply (@load_jsonl_crlf Toy.json Toy_json_laws). apply lookup_singleton_eq.
Defined.

(** ** More on identifiers *)

Lemma digits_inj (w : nat) (x y : Z) :
  0 <= x < 32 ^ Z.of_nat w -> 0 <= y < 32 ^ Z.of_nat w ->
  digits crockford 32 w x = digits crockford 32 w y -> x = y.
Proof.
  intros Hx Hy Heq.
  destruct (Z.lt_trichotomy x y) as [Hlt|[Heq'|Hgt]]; [|exact Heq'|].
  - pose proof (digits_lt w x y ltac:(lia) ltac:(lia)) as Hs.
    rewrite Heq in Hs. destruct (str_lt_irrefl _ Hs).
  - pose proof (digits_lt w y x ltac:(lia) ltac:(lia)) as Hs.
    rewrite Heq in Hs. destruct (str_lt_irrefl _ Hs).
Qed.

Lemma append_same_length_inj (a a' b b' : string) :
  String.length a = String.length a' ->
  a +:+ b = a' +:+ b' -> a = a' /\ b = b'.
Proof.
  revert a'. induction a as [|c a IH]; intros [|c' a'] Hlen Heq;
    simpl in Hlen; try discriminate.
  - split; [reflexivity | exact Heq].
  - rewrite !append_cons in Heq. inversion Heq; subst.
    destruct (IH a' ltac:(lia) ltac:(assumption)) as [-> ->].
    split; reflexivity.
Qed.

(** A ULID text has 26 characters, and two of them are equal only when
    both the millisecond and the random part are: within one
    millisecond, distinct random parts give distinct identifiers. *)
Theorem str_ULID_injective (ms ms' rnd rnd' : Z) :
  0 <= ms < 2 ^ 48 -> 0 <= ms' < 2 ^ 48 ->
  0 <= rnd < 2 ^ 80 -> 0 <= rnd' < 2 ^ 80 ->
  String.length (str_ULID ms rnd) = 26%nat
  /\ (str_ULID ms rnd = str_ULID ms' rnd' -> ms = ms' /\ rnd = rnd').
Proof.
  intros Hm Hm' Hr Hr'. unfold str_ULID. split.
  - rewrite length_append, !length_digits. reflexivity.
  - intros Heq.
    apply append_same_length_inj in Heq; [|rewrite !length_digits; reflexivity].
    destruct Heq as [H1 H2]. split.
    + apply (digits_inj 10); [simpl; lia | simpl; lia | exact H1].
    + apply (digits_inj 16); [simpl; lia | simpl; lia | exact H2].
Qed.

Lemma str_ULID_injective_witness :
  String.length (str_ULID 1700000000000 5) = 26%nat
  /\ (str_ULID 1700000000000 5 = str_ULID 1700000000000 6 ->
      1700000000000 = 1700000000000 /\ 5 = 6).
Proof. apply str_ULID_injective; lia. Defined.

(** ** More on the allow-list *)

Lemma is_space_lower_char (c : ascii) : is_space (lower_char c) = is_space c.
Proof.
  destruct c as [b0 b1 b2 b3 b4 b5 b6 b7];
    destruct b0, b1, b2, b3, b4, b5, b6, b7; vm_compute; reflexivity.
Qed.

Lemma lstrip_lower (s : string) : lstrip (lower s) = lower (lstrip s).
Proof.
  induction s as [|c s IH]; simpl; [reflexivity|].
  rewrite is_space_lower_char. destruct (is_space c); [exact IH | reflexivity].
Qed.

Lemma rstrip_lower (s : string) : rstrip (lower s) = lower (rstrip s).
Proof.
  induction s as [|c s IH]; simpl; [reflexivity|].
  rewrite IH, is_space_lower_char.
  destruct (rstrip s) as [|x r]; simpl; [|reflexivity].
  destruct (is_space c); reflexivity.
Qed.

Lemma rstrip_idem (s : string) : rstrip (rstrip s) = rstrip s.
Proof.
  induction s as [|c s IH]; simpl; [reflexivity|].
  destruct (rstrip s) as [|x r] eqn:E.
  - destruct (is_space c) eqn:Sp; simpl; [reflexivity|]. rewrite Sp. reflexivity.
  - simpl. simpl in IH. rewrite IH. reflexivity.
Qed.

Lemma lstrip_starts (s : string) :
  match lstrip s with
  | EmptyString => True
  | String c _ => is_space c = false
  end.
Proof.
  induction s as [|c s IH]; simpl; [exact I|].
  destruct (is_space c) eqn:Sp; [exact IH | exact Sp].
Qed.

Lemma rstrip_keeps_head (c : ascii) (s : string) :
  is_space c = false -> exists t, rstrip (String c s) = String c t.
Proof.
  intros Sp. simpl. destruct (rstrip s) as [|x r].
  - rewrite Sp. eexists. reflexivity.
  - eexists. reflexivity.
Qed.

Lemma lstrip_strip (s : string) : lstrip (strip s) = strip s.
Proof.
  unfold strip. pose proof (lstrip_starts s) as Hs.
  destruct (lstrip s) as [|c t]; [reflexivity|].
  destruct (rstrip_keeps_head c t Hs) as [t' Ht]. rewrite Ht.
  simpl. rewrite Hs. reflexivity.
Qed.

Lemma strip_idem (s : string) : strip (strip s) = strip s.
Proof.
  unfold strip at 1. rewrite lstrip_strip. unfold strip.
  apply rstrip_idem.
Qed.

Lemma strip_lower (s : string) : strip (lower s) = lower (strip s).
Proof. unfold strip. rewrite lstrip_lower, rstrip_lower. reflexivity. Qed.

(** Every entry of the allow-list is in normal form: lower case, not
    empty, and without blanks around it; so a stored or typed address
    is matched whatever case and spacing the configuration used. *)
Theorem APP_ADMIN_EMAILS_normal (cfg : secrets) (a : string) :
  In a (APP_ADMIN_EMAILS cfg) ->
  lower a = a /\ strip a = a /\ a <> EmptyString.
Proof.
  unfold APP_ADMIN_EMAILS.
  generalize (split "," (default EmptyString (ADMIN_EMAILS cfg))).
  intros parts. induction parts as [|e rest IH]; simpl; [intros []|].
  destruct (truthy (strip e)) eqn:T; [|exact IH].
  intros [<-|Hin]; [|exact (IH Hin)].
  split; [apply lower_idem|]. split.
  - rewrite strip_lower, strip_idem. reflexivity.
  - intros Hempty. rewrite <- truthy_lower, Hempty in T. discriminate.
Qed.

Lemma APP_ADMIN_EMAILS_normal_witness :
  lower "boss@edi.et" = "boss@edi.et"
  /\ strip "boss@edi.et" = "boss@edi.et"
  /\ "boss@edi.et" <> EmptyString.
Proof.
  apply (APP_ADMIN_EMAILS_normal
           {| SUPABASE_URL := None; SUPABASE_ANON_KEY := None;
              SUPABASE_SERVICE_ROLE_KEY := None;
              ADMIN_EMAILS := Some " Boss@EDI.et ,, clerk@edi.et" |}).
  vm_compute. left. reflexivity.
Defined.

(** ** Dates as stored *)

Lemma digit_inj (n m : Z) : digit n = digit m -> n mod 10 = m mod 10.
Proof.
  unfold digit. intros Heq.
  pose proof (Z.mod_pos_bound n 10 ltac:(lia)) as Bn.
  pose proof (Z.mod_pos_bound m 10 ltac:(lia)) as Bm.
  apply (f_equal N_of_ascii) in Heq.
  rewrite !N_ascii_embedding in Heq by lia. lia.
Qed.

Lemma zero_padded_inj (w : nat) (x y : Z) :
  0 <= x < 10 ^ Z.of_nat w -> 0 <= y < 10 ^ Z.of_nat w ->
  zero_padded w x = zero_padded w y -> x = y.
Proof.
  revert x y. induction w as [|w IH]; intros x y Hx Hy Heq.
  - simpl in Hx, Hy. lia.
  - rewrite Nat2Z.inj_succ, Z.pow_succ_r in Hx, Hy by lia.
    simpl in Heq.
    apply append_same_length_inj in Heq;
      [|rewrite !length_zero_padded; reflexivity].
    destruct Heq as [Hhi Hlo]. inversion Hlo as [Hd].
    apply digit_inj in Hd.
    assert (Hq : x / 10 = y / 10).
    { apply IH; [| |exact Hhi].
      - split; [apply Z.div_pos; lia | apply Z.div_lt_upper_bound; lia].
      - split; [apply Z.div_pos; lia | apply Z.div_lt_upper_bound; lia]. }
    rewrite (Z.div_mod x 10), (Z.div_mod y 10) by lia. rewrite Hq, Hd.
    reflexivity.
Qed.

Lemma days_in_month_le (y m : Z) : days_in_month y m <= 31.
Proof.
  unfold days_in_month.
  destruct (m =? 2); [destruct (is_leap y); lia|].
  destruct ((m =? 4) || (m =? 6) || (m =? 9) || (m =? 11)); lia.
Qed.

(** The stored text of a date has ten characters, and two valid dates
    with the same text are the same date. *)
Theorem str_date_injective (d d' : date) :
  valid_date d = true -> valid_date d' = true ->
  String.length (str_date d) = 10%nat
  /\ (str_date d = str_date d' -> d = d').
Proof.
  unfold valid_date. intros Hd Hd'.
  repeat (apply andb_prop in Hd; destruct Hd as [Hd ?]).
  repeat (apply andb_prop in Hd'; destruct Hd' as [Hd' ?]).
  repeat match goal with
         | H : (_ <=? _) = true |- _ => apply Z.leb_le in H
         end.
  pose proof (days_in_month_le (year d) (month d)).
  pose proof (days_in_month_le (year d') (month d')).
  unfold str_date. split.
  - rewrite !length_append, !length_zero_padded. reflexivity.
  - intros Heq.
    apply append_same_length_inj in Heq;
      [|rewrite !length_zero_padded; reflexivity].
    destruct Heq as [Hy Heq].
    apply (append_same_length_inj "-" "-") in Heq; [|reflexivity].
    destruct Heq as [_ Heq].
    apply append_same_length_inj in Heq;
      [|rewrite !length_zero_padded; reflexivity].
    destruct Heq as [Hm Heq].
    apply (append_same_length_inj "-" "-") in Heq; [|reflexivity].
    destruct Heq as [_ Hday].
    apply zero_padded_inj in Hy; [|simpl; lia|simpl; lia].
    apply zero_padded_inj in Hm; [|simpl; lia|simpl; lia].
    apply zero_padded_inj in Hday; [|simpl; lia|simpl; lia].
    destruct d, d'. simpl in *. subst. reflexivity.
Qed.

Lemma str_date_injective_witness :
  String.length (str_date (mk_date 2020 2 29)) = 10%nat
  /\ (str_date (mk_date 2020 2 29) = str_date (mk_date 2020 2 29) ->
      mk_date 2020 2 29 = mk_date 2020 2 29).
Proof. apply str_date_injective; reflexivity. Defined.

(** ** One run of the script *)

Lemma load_jsonl_same_file `{Json} (path : string) (fs fs' : gmap string string) :
  fs !! path = fs' !! path -> load_jsonl path fs = load_jsonl path fs'.
Proof. unfold load_jsonl. intros ->. reflexivity. Qed.

(** No run of the script creates or changes a user: the hosted users
    table and the rows of the local users file are the same after any
    interaction ([admin_create_user_box] is defined but never
    called). *)
Theorem script_never_writes_users `{Json} `{Bcrypt} (cfg : secrets)
    (query_params : gmap string string) (a : interaction) (w : world) :
  let w' := snd (script cfg query_params a w) in
  remote_users w' = remote_users w
  /\ load_jsonl users_path (files w') = load_jsonl users_path (files w).
Proof.
  intros w'. subst w'. unfold script.
  destruct (get_role_from_query query_params) as [role|]; [|simpl; tauto].
  set (w1 := set_files (ensure_tables_exist cfg (files w)) w).
  assert (H1 : remote_users w1 = remote_users w) by reflexivity.
  assert (H2 : load_jsonl users_path (files w1) = load_jsonl users_path (files w))
    by (apply (ensure_tables_exist_keeps cfg (files w) users_path)).
  cbv zeta.
  destruct (user (session w1)) as [u|].
  - destruct (route role); destruct a; simpl; try tauto.
    + destruct (admin_page_update_keeps cfg idx new_credit w1)
        as [_ [_ [_ [Hu Hf]]]].
      rewrite Hu. split; [exact H1|].
      rewrite (load_jsonl_same_file _ _ _ Hf). exact H2.
    + destruct (collector_page_keeps cfg wd env w1) as [_ [Hu [Hf _]]].
      rewrite Hu. split; [exact H1|].
      rewrite (load_jsonl_same_file _ _ _ Hf). exact H2.
  - destruct a; simpl; try tauto.
    destruct (login_box_keeps cfg email password fresh w1) as [Hf [Hu _]].
    rewrite Hu, Hf. tauto.
Qed.

(** While nobody is signed in, no interaction stores or changes an
    applicant record. *)
Theorem script_gate `{Json} `{Bcrypt} (cfg : secrets)
    (query_params : gmap string string) (a : interaction) (w : world) :
  user (session w) = None ->
  let w' := snd (script cfg query_params a w) in
  remote_applicants w' = remote_applicants w
  /\ load_jsonl applicants_path (files w')
     = load_jsonl applicants_path (files w).
Proof.
  intros Hnone w'. subst w'. unfold script.
  destruct (get_role_from_query query_params) as [role|]; [|simpl; tauto].
  set (w1 := set_files (ensure_tables_exist cfg (files w)) w).
  assert (H1 : remote_applicants w1 = remote_applicants w) by reflexivity.
  assert (H2 : load_jsonl applicants_path (files w1)
               = load_jsonl applicants_path (files w))
    by (apply (ensure_tables_exist_keeps cfg (files w) applicants_path)).
  cbv zeta. change (user (session w1)) with (user (session w)).
  rewrite Hnone.
  destruct a; simpl; try tauto.
  destruct (login_box_keeps cfg email password fresh w1) as [Hf [_ [Ha _]]].
  rewrite Ha, Hf. tauto.
Qed.

Lemma script_gate_witness :
  remote_applicants
    (snd (@script Toy.json Toy.bcrypt cfg_service ∅
            (press_save_applicant sample_form sample_env) (hosted signed_out)))
  = remote_applicants (hosted signed_out)
  /\ @load_jsonl Toy.json applicants_path
       (files (snd (@script Toy.json Toy.bcrypt cfg_service ∅
                      (press_save_applicant sample_form sample_env)
                      (hosted signed_out))))
     = @load_jsonl Toy.json applicants_path (files (hosted signed_out)).
Proof.
  apply (@script_gate Toy.json Toy.bcrypt cfg_service ∅
           (press_save_applicant sample_form sample_env) (hosted signed_out)).
  reflexivity.
Defined.

(** ** The user lookup of the login box *)

Lemma rows_with_email_total (email : string) (rows : list record) :
  Forall (fun r => exists e, r !! "email" = Some (JStr e)) rows ->
  exists found, rows_with_email email rows = Some found.
Proof.
  induction 1 as [|r rows [e He] _ [tl IH]]; simpl.
  - eexists. reflexivity.
  - rewrite He, IH. simpl. eexists. reflexivity.
Qed.

Lemma rows_with_email_raises (email : string) (rows : list record) (r : record) :
  In r rows -> (forall e, r !! "email" <> Some (JStr e)) ->
  rows_with_email email rows = None.
Proof.
  induction rows as [|x rows IH]; simpl; [intros []|].
  intros [->|Hin] Hno.
  - destruct (r !! "email") as [[| | | |e]|] eqn:E; try reflexivity.
    destruct (Hno e eq_refl).
  - rewrite (IH Hin Hno).
    destruct (x !! "email") as [[| | | |e]|]; reflexivity.
Qed.

(** On the local backend the lookup returns exactly the stored users
    whose address equals the typed one up to letter case, when every
    stored row has a text [email]. *)
Theorem find_user_local `{JsonLaws} (cfg : secrets) (email : string)
    (w : world) (rows : list record) :
  supabase cfg = false ->
  stored users_path rows (files w) ->
  Forall (fun r => exists e, r !! "email" = Some (JStr e)) rows ->
  exists found,
    find_user cfg email w = Some found
    /\ forall r, In r found
         <-> In r rows
             /\ exists e, r !! "email" = Some (JStr e) /\ same_email e email.
Proof.
  intros Hs Hst Hall.
  destruct (rows_with_email_total email rows Hall) as [found Hf].
  exists found. split.
  - unfold find_user. rewrite Hs, (load_stored _ _ _ Hst). exact Hf.
  - intros r. apply rows_with_email_spec. exact Hf.
Qed.

Lemma find_user_local_witness :
  exists found,
    @find_user Toy.json cfg_local "Clerk@EDI.et" (on_disk signed_out) = Some found
    /\ forall r, In r found
         <-> In r [clerk_row]
             /\ exists e, r !! "email" = Some (JStr e)
                          /\ same_email e "Clerk@EDI.et".
Proof.
  apply (@find_user_local Toy.json Toy_json_laws cfg_local "Clerk@EDI.et"
           (on_disk signed_out) [clerk_row]).
  - reflexivity.
  - exact disk_users.
  - constructor; [|constructor]. exists "clerk@edi.et". reflexivity.
Defined.

(** A stored row without a text [email] makes every local sign-in
    raise, whoever signs in, and the state stays as it was. *)
Theorem login_raises_on_row_without_email `{JsonLaws} `{!Bcrypt}
    (cfg : secrets) (email password : string) (fresh : Z) (w : world)
    (rows : list record) (r : record) :
  supabase cfg = false ->
  stored users_path rows (files w) ->
  In r rows -> (forall e, r !! "email" <> Some (JStr e)) ->
  login_box cfg email password fresh w = (raised, w).
Proof.
  intros Hs Hst Hin Hno. unfold login_box, find_user.
  rewrite Hs, (load_stored _ _ _ Hst). simpl.
  rewrite (rows_with_email_raises email rows r Hin Hno). reflexivity.
Qed.

Lemma login_raises_on_row_without_email_witness :
  @login_box Toy.json Toy.bcrypt cfg_local "clerk@edi.et" "secret1" 7
    {| files := @save_jsonl Toy.json users_path row_without_email
                  (@save_jsonl Toy.json users_path clerk_row ∅);
       remote_users := []; remote_applicants := []; session := signed_out |}
  = (raised,
     {| files := @save_jsonl Toy.json users_path row_without_email
                   (@save_jsonl Toy.json users_path clerk_row ∅);
        remote_users := []; remote_applicants := []; session := signed_out |}).
Proof.
  apply (@login_raises_on_row_without_email Toy.json Toy_json_laws Toy.bcrypt
           cfg_local "clerk@edi.et" "secret1" 7 _
           ([clerk_row] ++ [row_without_email]) row_without_email).
  - reflexivity.
  - apply (@stored_save Toy.json users_path [clerk_row] row_without_email).
    apply (@stored_save Toy.json users_path [] clerk_row).
    apply stored_missing.
  - right. left. reflexivity.
  - intros e He. vm_compute in He. discriminate.
Defined.

(** ** The hosted tables without the service-role key *)

(** With the hosted client but no service-role key, neither the admin
    update nor the creation of a user reaches the hosted tables: the
    rows the dashboard lists and the users the login looks up are the
    same afterwards. *)
Theorem hosted_writes_need_service_key `{Json} `{Bcrypt} (cfg : secrets)
    (w : world) :
  supabase cfg = true -> supabase_admin cfg = false ->
  (forall idx x,
     admin_rows cfg (snd (admin_page_update cfg idx x w)) = admin_rows cfg w)
  /\ (forall email role_sel pwd1 pwd2 salt fresh typed,
        find_user cfg typed
          (snd (admin_create_user_box cfg email role_sel pwd1 pwd2 salt fresh w))
        = find_user cfg typed w).
Proof.
  intros Hs Hsa. split.
  - intros idx x. unfold admin_page_update.
    destruct (user (session w)) as [u|]; [|reflexivity].
    destruct (negb (is_admin cfg (session w) (user_email u))); [reflexivity|].
    destruct (admin_rows cfg w) as [rows|] eqn:Hr; [|simpl; rewrite Hr; reflexivity].
    destruct (rows !! idx) as [row|]; [|simpl; rewrite Hr; reflexivity].
    rewrite Hsa. simpl. rewrite <- Hr.
    unfold admin_rows. rewrite Hsa, Hs. reflexivity.
  - intros email role_sel pwd1 pwd2 salt fresh typed.
    unfold admin_create_user_box.
    destruct (negb (is_admin cfg (session w) _)); [reflexivity|].
    destruct (negb (String.eqb pwd1 pwd2) || _); [reflexivity|].
    rewrite Hsa. simpl. unfold find_user. rewrite Hs. reflexivity.
Qed.

Lemma hosted_writes_need_service_key_witness :
  (forall idx x,
     @admin_rows Toy.json cfg_anon
       (snd (@admin_page_update Toy.json cfg_anon idx x (hosted boss_session)))
     = @admin_rows Toy.json cfg_anon (hosted boss_session))
  /\ (forall email role_sel pwd1 pwd2 salt fresh typed,
        @find_user Toy.json cfg_anon typed
          (snd (@admin_create_user_box Toy.json Toy.bcrypt cfg_anon
                  email role_sel pwd1 pwd2 salt fresh (hosted boss_session)))
        = @find_user Toy.json cfg_anon typed (hosted boss_session)).
Proof.
  apply (@hosted_writes_need_service_key Toy.json Toy.bcrypt cfg_anon
           (hosted boss_session)); reflexivity.
Defined.
